(** * Credential service: a shallow embedding of [main.py]

    The HTTP service of the repository ([main.py]) is embedded as Rocq
    functions: the five route handlers, the output mapping [to_out] of the
    list endpoint and the filter it builds.  Python text is held as its UTF-8
    encoding, a [string] of bytes: a character of the text is one byte for
    ASCII and a lead byte followed by continuation bytes otherwise, and a
    slice of a text counts characters, not bytes.  The pattern model of
    the store compares the elements of the string, which are the characters
    of an ASCII text.  A raw document is a
    finite map from field names to Python values, exceptions are explicit
    ([outcome]), and the document store is an explicit state threaded
    through the gateway calls. *)

From Stdlib Require Import Ascii.
From stdpp Require Import base numbers option list strings gmap pretty.

(** ** Python values, exceptions and text *)

Module Py.

(** Exceptions the handlers can meet.  [Exception cls msg] stands for any
    other subclass of Python's [Exception]; [msg] is what [str(e)] gives. *)
Inductive exn :=
| ImportError (msg : string)
| AttributeError (msg : string)
| HTTPException (status_code : nat) (detail : string)
| Exception (cls : string) (msg : string).

(** The result of running Python code that may raise. *)
Inductive outcome (A : Type) :=
| Return (a : A)
| Raise (e : exn).
Arguments Return {A} a.
Arguments Raise {A} e.

Definition obind {A B} (m : outcome A) (k : A → outcome B) : outcome B :=
  match m with
  | Return a => k a
  | Raise e => Raise e
  end.

Notation "'do' x <- m ; k" := (obind m (λ x, k))
  (at level 10, x name, m at level 100, k at level 200).

(** A list comprehension [[f(d) for d in l]]: the first call that raises
    aborts the whole comprehension. *)
Fixpoint comprehension {A B} (f : A → outcome B) (l : list A) : outcome (list B) :=
  match l with
  | [] => Return []
  | d :: l' => do b <- f d; do bs <- comprehension f l'; Return (b :: bs)
  end.

(** [datetime.datetime]: the calendar fields, and the UTC offset in minutes
    of an aware value ([None] for a naive one). *)
Record datetime := Datetime {
  year : N; month : N; day : N;
  hour : N; minute : N; second : N; microsecond : N;
  utcoffset : option Z
}.

(** The values a raw document holds. *)
Inductive value :=
| VNone
| VBool (b : bool)
| VInt (n : Z)
| VStr (s : string)
| VDatetime (d : datetime)
| VObjectId (hex : string).

Definition digit (n : N) : ascii := ascii_of_N (48 + n mod 10)%N.

(** [n] in decimal on exactly [w] digits (the format [%0wd] for [n < 10^w]). *)
Fixpoint zero_padded (w : nat) (n : N) : string :=
  match w with
  | O => ""
  | S w' => zero_padded w' (n / 10)%N +:+ String (digit n) ""
  end.

Definition offset_text (off : Z) : string :=
  let a := Z.to_N (Z.abs off) in
  (if (off <? 0)%Z then "-" else "+") +:+
  zero_padded 2 (a / 60)%N +:+ ":" +:+ zero_padded 2 (a mod 60)%N.

(** [d.isoformat(sep)]: [YYYY-MM-DD], the separator, [HH:MM:SS], the
    microseconds when they are not zero, the offset of an aware value. *)
Definition isoformat_sep (sep : string) (d : datetime) : string :=
  zero_padded 4 (year d) +:+ "-" +:+ zero_padded 2 (month d) +:+ "-" +:+
  zero_padded 2 (day d) +:+ sep +:+
  zero_padded 2 (hour d) +:+ ":" +:+ zero_padded 2 (minute d) +:+ ":" +:+
  zero_padded 2 (second d) +:+
  (if (microsecond d =? 0)%N then "" else "." +:+ zero_padded 6 (microsecond d)) +:+
  match utcoffset d with
  | None => ""
  | Some off => offset_text off
  end.

Definition isoformat (d : datetime) : string := isoformat_sep "T" d.

(** [type(v).__name__] *)
Definition type_name (v : value) : string :=
  match v with
  | VNone => "NoneType"
  | VBool _ => "bool"
  | VInt _ => "int"
  | VStr _ => "str"
  | VDatetime _ => "datetime"
  | VObjectId _ => "ObjectId"
  end.

(** [bool(v)], the test of an [if] *)
Definition truthy (v : value) : bool :=
  match v with
  | VNone => false
  | VBool b => b
  | VInt n => negb (n =? 0)%Z
  | VStr s => negb (String.eqb s "")
  | VDatetime _ => true
  | VObjectId _ => true
  end.

(** [str(v)] *)
Definition str (v : value) : string :=
  match v with
  | VNone => "None"
  | VBool true => "True"
  | VBool false => "False"
  | VInt n => pretty n
  | VStr s => s
  | VDatetime d => isoformat_sep " " d
  | VObjectId hex => hex
  end.

(** [str(e)] for an exception *)
Definition str_exn (e : exn) : string :=
  match e with
  | ImportError msg => msg
  | AttributeError msg => msg
  | HTTPException c d => pretty c +:+ ": " +:+ d
  | Exception _ msg => msg
  end.

(** [v.isoformat()]: only a datetime has the method. *)
Definition call_isoformat (v : value) : outcome string :=
  match v with
  | VDatetime d => Return (isoformat d)
  | _ => Raise (AttributeError
           ("'" +:+ type_name v +:+ "' object has no attribute 'isoformat'"))
  end.

(** A continuation byte of a UTF-8 sequence: [10xxxxxx]. *)
Definition is_continuation (c : ascii) : bool :=
  (N.leb 128 (N_of_ascii c) && N.ltb (N_of_ascii c) 192)%bool.

(** [len(s)]: the number of characters of a text, one for each byte that is
    not a continuation byte. *)
Fixpoint char_length (s : string) : nat :=
  match s with
  | EmptyString => O
  | String c s' => if is_continuation c then char_length s' else S (char_length s')
  end.

(** [s[:n]]: the first [n] characters of the text, each with all its
    bytes; the text itself when it has no more than [n] characters. *)
Fixpoint slice_to (n : nat) (s : string) : string :=
  match s with
  | EmptyString => EmptyString
  | String c s' =>
      if is_continuation c then String c (slice_to n s')
      else match n with
           | O => EmptyString
           | S n' => String c (slice_to n' s')
           end
  end.

(** [s * n] *)
Fixpoint repeat_text (n : nat) (s : string) : string :=
  match n with
  | O => EmptyString
  | S n' => s +:+ repeat_text n' s
  end.

(** [doc.get(key)] and [doc.get(key, default)] on a raw document. *)
Definition get (doc : gmap string value) (key : string) : value :=
  default VNone (doc !! key).
Definition get_or (doc : gmap string value) (key : string) (dflt : value) : value :=
  default dflt (doc !! key).

End Py.
Import Py.


(** ** Schemas *)

(** Modelled from the spec: [schemas.Credential], the validated body of a
    create request, whose declaration is not in [main.py].  Section 3 of the
    specification gives its fields: [title], [username] and [password] are
    text, [url] and [note] are optional text. *)
Record Credential := {
  cred_title : string;
  cred_username : string;
  cred_password : string;
  cred_url : option string;
  cred_note : option string
}.

(** Modelled from the spec: [schemas.CredentialOut], whose declaration is not
    in [main.py].  Section 3 of the specification gives its fields: [id],
    [title], [username], [password] are text, [url], [note], [created_at]
    and [updated_at] are text or null. *)
Record CredentialOut := {
  out_id : string;
  out_title : string;
  out_username : string;
  out_password : string;
  out_url : option string;
  out_note : option string;
  out_created_at : option string;
  out_updated_at : option string
}.

(** The response model of the create endpoint ([main.py], lines 77-78). *)
Record CreateResponse := { resp_id : string }.

(** Modelled from the spec: the validation a model constructor runs on its
    keyword arguments.  A text field takes a [str]; an optional text field
    takes a [str] or [None]; anything else is refused with a validation
    error, whose message names the field. *)
Definition validation_error (field : string) : exn :=
  Exception "ValidationError" ("1 validation error for CredentialOut: " +:+ field).

Definition text_field (field : string) (v : value) : outcome string :=
  match v with
  | VStr s => Return s
  | _ => Raise (validation_error field)
  end.

Definition optional_text_field (field : string) (v : value) : outcome (option string) :=
  match v with
  | VStr s => Return (Some s)
  | VNone => Return None
  | _ => Raise (validation_error field)
  end.

Definition CredentialOut_new
    (id title username password url note created_at updated_at : value)
  : outcome CredentialOut :=
  do id' <- text_field "id" id;
  do title' <- text_field "title" title;
  do username' <- text_field "username" username;
  do password' <- text_field "password" password;
  do url' <- optional_text_field "url" url;
  do note' <- optional_text_field "note" note;
  do created' <- optional_text_field "created_at" created_at;
  do updated' <- optional_text_field "updated_at" updated_at;
  Return {| out_id := id'; out_title := title'; out_username := username';
            out_password := password'; out_url := url'; out_note := note';
            out_created_at := created'; out_updated_at := updated' |}.

(** ** The output mapping of the list endpoint ([main.py], lines 102-112) *)

(** [doc.get(key).isoformat() if doc.get(key) else None] *)
Definition timestamp_text (doc : gmap string value) (key : string) : outcome value :=
  if truthy (get doc key)
  then do s <- call_isoformat (get doc key); Return (VStr s)
  else Return VNone.

(** The keyword arguments are evaluated in the order they are written, then
    the constructor validates them. *)
Definition to_out (doc : gmap string value) : outcome CredentialOut :=
  let id := VStr (str (get doc "_id")) in
  let title := get_or doc "title" (VStr "") in
  let username := get_or doc "username" (VStr "") in
  let password := get_or doc "password" (VStr "") in
  let url := get doc "url" in
  let note := get doc "note" in
  do created_at <- timestamp_text doc "created_at";
  do updated_at <- timestamp_text doc "updated_at";
  CredentialOut_new id title username password url note created_at updated_at.

(** ** The document store gateway, as [main.py] uses it *)

(** The filter expressions [main.py] builds (lines 91-99): the empty filter
    [{}], a [$or] of clauses, and a clause
    [{field: {"$regex": pattern, "$options": options}}]. *)
Inductive clause :=
| Regex (field pattern options : string).

Inductive filter_expr :=
| MatchAll
| Or (clauses : list clause).

(** Code that runs against the store: it reads and updates the store state
    and may raise. *)
Definition action (S A : Type) : Type := S → outcome A * S.

Definition ret {S A} (a : A) : action S A := λ s, (Return a, s).
Definition raise {S A} (e : exn) : action S A := λ s, (Raise e, s).
Definition bind {S A B} (m : action S A) (k : A → action S B) : action S B :=
  λ s, match m s with
       | (Return a, s') => k a s'
       | (Raise e, s') => (Raise e, s')
       end.
Definition lift {S A} (m : outcome A) : action S A := λ s, (m, s).

(** [try: body except Exception as e: handler(e)] *)
Definition try_except {S A} (body : action S A) (handler : exn → action S A)
  : action S A :=
  λ s, match body s with
       | (Return a, s') => (Return a, s')
       | (Raise e, s') => handler e s'
       end.

Notation "'run' x <- m ; k" := (bind m (λ x, k))
  (at level 10, x name, m at level 100, k at level 200).

(** The two operations [main.py] imports from [database] (line 8), over a
    store state [S]. *)
Record gateway (S : Type) := {
  create_document : string → Credential → action S string;
  get_documents : string → filter_expr → action S (list (gmap string value))
}.
Arguments create_document {S} _ _ _ _.
Arguments get_documents {S} _ _ _ _.

(** ** Route handlers *)

(** JSON values of the response bodies. *)
Inductive json :=
| JNull
| JStr (s : string)
| JList (l : list string).

Inductive body :=
| Object (o : gmap string json)
| Array (l : list (gmap string json))
| PlainText (s : string)
| ValidationErrors (errors : list (gmap string json)).   (* [{"detail": [...]}] *)

Record http_response := { status : nat; content : body }.

(** [GET /] ([main.py], lines 21-23) *)
Definition read_root : gmap string json :=
  {[ "message" := JStr "Hello from FastAPI Backend!" ]}.

(** [GET /api/hello] ([main.py], lines 25-27) *)
Definition hello : gmap string json :=
  {[ "message" := JStr "Hello from the backend API!" ]}.

(** What [GET /test] probes: the [db] object of the [database] module and
    the process environment. *)
Record db_handle := {
  db_name : option string;                        (* [db.name], a plain attribute, when [hasattr(db, 'name')] *)
  list_collection_names : outcome (list string)   (* [db.list_collection_names()] *)
}.

Record probes := {
  import_db : outcome (option db_handle);   (* [from database import db]; [None] is Python's [None] *)
  getenv : string → option string           (* [os.getenv] *)
}.

Definition env_set (p : probes) (name : string) : bool :=
  match getenv p name with
  | Some v => truthy (VStr v)
  | None => false
  end.

(** [GET /test] ([main.py], lines 29-71).  [response] is the dictionary the
    handler fills in, one assignment after the other. *)
Definition test_database (p : probes) : gmap string json :=
  let response : gmap string json :=
    {[ "backend" := JStr "✅ Running";
       "database" := JStr "❌ Not Available";
       "database_url" := JNull;
       "database_name" := JNull;
       "connection_status" := JStr "Not Connected";
       "collections" := JList [] ]} in
  let response :=
    match import_db p with
    | Return (Some db) =>
        let response := <["database" := JStr "✅ Available"]> response in
        let response := <["database_url" := JStr "✅ Configured"]> response in
        let response :=
          <["database_name" := JStr (default "✅ Connected" (db_name db))]> response in
        let response := <["connection_status" := JStr "Connected"]> response in
        match list_collection_names db with
        | Return collections =>
            let response := <["collections" := JList (take 10 collections)]> response in
            <["database" := JStr "✅ Connected & Working"]> response
        | Raise e =>
            <["database" :=
                JStr ("⚠️  Connected but Error: " +:+ slice_to 50 (str_exn e))]> response
        end
    | Return None =>
        <["database" := JStr "⚠️  Available but not initialized"]> response
    | Raise (ImportError _) =>
        <["database" :=
            JStr "❌ Database module not found (run enable-database first)"]> response
    | Raise e =>
        <["database" := JStr ("❌ Error: " +:+ slice_to 50 (str_exn e))]> response
    end in
  let response :=
    <["database_url" :=
        JStr (if env_set p "DATABASE_URL" then "✅ Set" else "❌ Not Set")]> response in
  let response :=
    <["database_name" :=
        JStr (if env_set p "DATABASE_NAME" then "✅ Set" else "❌ Not Set")]> response in
  response.

(** The filter of the list endpoint ([main.py], lines 91-99): [q] is [None]
    when the query parameter is absent; [if q] also fails for the empty
    text. *)
Definition filter_query (q : option string) : filter_expr :=
  match q with
  | Some text =>
      if truthy (VStr text)
      then Or [ Regex "title" text "i"; Regex "username" text "i" ]
      else MatchAll
  | None => MatchAll
  end.

Section Handlers.
Context {S : Type} (gw : gateway S).

(** [POST /api/credentials] ([main.py], lines 80-86) *)
Definition create_credential (credential : Credential) : action S CreateResponse :=
  try_except
    (run inserted_id <- create_document gw "credential" credential;
     ret {| resp_id := inserted_id |})
    (λ e, raise (HTTPException 500 (str_exn e))).

(** [GET /api/credentials] ([main.py], lines 88-115) *)
Definition list_credentials (q : option string) : action S (list CredentialOut) :=
  try_except
    (run docs <- get_documents gw "credential" (filter_query q);
     lift (comprehension to_out docs))
    (λ e, raise (HTTPException 500 (str_exn e))).
End Handlers.

(** ** The framework around the handlers *)

Definition opt_json (o : option string) : json :=
  match o with
  | Some s => JStr s
  | None => JNull
  end.

(** The JSON object of a [CredentialOut].  The routes are declared with
    [response_model] alone (lines 80 and 88), so no field is left out of the
    serialised object, whatever its value. *)
Definition CredentialOut_json (o : CredentialOut) : gmap string json :=
  {[ "id" := JStr (out_id o);
     "title" := JStr (out_title o);
     "username" := JStr (out_username o);
     "password" := JStr (out_password o);
     "url" := opt_json (out_url o);
     "note" := opt_json (out_note o);
     "created_at" := opt_json (out_created_at o);
     "updated_at" := opt_json (out_updated_at o) ]}.

Definition CreateResponse_json (r : CreateResponse) : gmap string json :=
  {[ "id" := JStr (resp_id r) ]}.

(** What the framework sends for a handler's outcome: 200 with the serialised
    value when it returns, the status and detail of an [HTTPException], and
    a bare 500 for any other exception that escapes a handler. *)
Definition respond {A} (to_body : A → body) (r : outcome A) : http_response :=
  match r with
  | Return a => {| status := 200; content := to_body a |}
  | Raise (HTTPException code detail) =>
      {| status := code; content := Object {[ "detail" := JStr detail ]} |}
  | Raise _ => {| status := 500; content := PlainText "Internal Server Error" |}
  end.

(** The requests the five routes receive.  The parameter
    [credential: Credential] of the create handler (line 81) makes the
    framework validate the body before the handler runs:
    [POST_api_credentials c] is a create request whose body validated to
    [c], and [POST_api_credentials_refused errors] one whose body did not,
    with the errors the validation found.  A request for another path or
    method never reaches a handler and is not modelled. *)
Inductive request :=
| GET_root
| GET_api_hello
| GET_test
| POST_api_credentials (credential : Credential)
| POST_api_credentials_refused (errors : list (gmap string json))
| GET_api_credentials (q : option string).

(** The application: the five routes of [main.py].  A create request whose
    body does not validate is answered by the framework with 422 and the
    list of errors; [create_credential] is not called. *)
Definition app {S} (gw : gateway S) (p : probes) (r : request) (s : S)
  : http_response * S :=
  match r with
  | GET_root => (respond Object (Return read_root), s)
  | GET_api_hello => (respond Object (Return hello), s)
  | GET_test => (respond Object (Return (test_database p)), s)
  | POST_api_credentials credential =>
      let '(r, s') := create_credential gw credential s in
      (respond (λ a, Object (CreateResponse_json a)) r, s')
  | POST_api_credentials_refused errors =>
      ({| status := 422; content := ValidationErrors errors |}, s)
  | GET_api_credentials q =>
      let '(r, s') := list_credentials gw q s in
      (respond (λ l, Array (CredentialOut_json <$> l)) r, s')
  end.

(** ** The document store *)

Module Store.

(** *** Pattern matching of the store *)

(** Modelled from the spec: the case-insensitive pattern match the store
    runs for a [$regex] clause; the store and its pattern engine are not in
    [main.py].  The model covers this fragment of the pattern language:
    ordinary characters, the wildcard [.] (any character but a line feed)
    and a backslash before a character that is neither a letter nor a
    digit, which makes that character ordinary.  A backslash that ends the
    pattern is an error of the pattern.  Every other pattern is outside the
    model ([Unmodelled]); the statements below that run a pattern keep to
    the fragment.  Case is folded on the letters A-Z. *)
Inductive atom :=
| AnyChar
| Char (c : ascii).

Inductive compiled :=
| Compiled (r : list atom)
| Invalid
| Unmodelled.

Definition metachars : list ascii :=
  ["\"; "^"; "$"; "."; "|"; "?"; "*"; "+"; "("; ")"; "["; "]"; "{"; "}"]%char.

Definition is_metachar (c : ascii) : bool := bool_decide (c ∈ metachars).

Definition between (lo hi c : ascii) : bool :=
  (N.leb (N_of_ascii lo) (N_of_ascii c) && N.leb (N_of_ascii c) (N_of_ascii hi))%bool.

Definition is_alnum (c : ascii) : bool :=
  (between "a" "z" c || between "A" "Z" c || between "0" "9" c)%bool.

Definition lower (c : ascii) : ascii :=
  if between "A" "Z" c then ascii_of_N (N_of_ascii c + 32)%N else c.

Fixpoint lower_text (s : string) : string :=
  match s with
  | EmptyString => EmptyString
  | String c s' => String (lower c) (lower_text s')
  end.

Definition cons_atom (a : atom) (c : compiled) : compiled :=
  match c with
  | Compiled r => Compiled (a :: r)
  | other => other
  end.

Fixpoint regex_compile (p : string) : compiled :=
  match p with
  | EmptyString => Compiled []
  | String c rest =>
      if Ascii.eqb c "." then cons_atom AnyChar (regex_compile rest)
      else if Ascii.eqb c "\" then
        match rest with
        | EmptyString => Invalid
        | String c' rest' =>
            if is_alnum c' then Unmodelled
            else cons_atom (Char c') (regex_compile rest')
        end
      else if is_metachar c then Unmodelled
      else cons_atom (Char c) (regex_compile rest)
  end.

Definition atom_matches (ci : bool) (a : atom) (x : ascii) : bool :=
  match a with
  | AnyChar => negb (Ascii.eqb x "010")
  | Char c => if ci then Ascii.eqb (lower c) (lower x) else Ascii.eqb c x
  end.

(** The pattern matches at the start of the subject. *)
Fixpoint match_here (ci : bool) (r : list atom) (s : string) : bool :=
  match r, s with
  | [], _ => true
  | _ :: _, EmptyString => false
  | a :: r', String x s' => atom_matches ci a x && match_here ci r' s'
  end.

(** The pattern matches somewhere in the subject. *)
Fixpoint search (ci : bool) (r : list atom) (s : string) : bool :=
  match_here ci r s ||
  match s with
  | EmptyString => false
  | String _ s' => search ci r s'
  end.

(** The options of a clause: none, or ["i"] for a case-insensitive match. *)
Definition regex_options (options : string) : option bool :=
  if String.eqb options "" then Some false
  else if String.eqb options "i" then Some true
  else None.

(** A clause as a predicate on documents.  A pattern is matched against a
    field that holds text; a document without the field, or with another
    kind of value in it, does not match. *)
Inductive predicate :=
| Pred (holds : gmap string value → bool)
| BadPattern
| NotModelled.

Definition clause_pred (c : clause) : predicate :=
  match c with
  | Regex field pattern options =>
      match regex_options options, regex_compile pattern with
      | Some ci, Compiled r =>
          Pred (λ doc, match doc !! field with
                       | Some (VStr s) => search ci r s
                       | _ => false
                       end)
      | _, Invalid => BadPattern
      | _, _ => NotModelled
      end
  end.

Fixpoint or_pred (cs : list clause) : predicate :=
  match cs with
  | [] => Pred (λ _, false)
  | c :: cs' =>
      match clause_pred c, or_pred cs' with
      | Pred f, Pred g => Pred (λ doc, f doc || g doc)
      | BadPattern, _ | Pred _, BadPattern => BadPattern
      | _, _ => NotModelled
      end
  end.

Definition filter_pred (f : filter_expr) : predicate :=
  match f with
  | MatchAll => Pred (λ _, true)
  | Or cs => or_pred cs
  end.

(** *** The store and its two operations *)

(** The state of the store: the documents of each collection in the order
    the store returns them, the counter identifiers are drawn from, and the
    outcomes the underlying store has in stock for the coming operations
    ([Some e]: the operation fails with [e]). *)
Record store := {
  collections : gmap string (list (gmap string value));
  next_id : N;
  faults : list (option exn)
}.

Definition documents (coll : string) (st : store) : list (gmap string value) :=
  default [] (collections st !! coll).

Definition hex_digit (n : N) : ascii :=
  let d := (n mod 16)%N in
  if (d <? 10)%N then ascii_of_N (48 + d)%N else ascii_of_N (87 + d)%N.

Fixpoint hex_padded (w : nat) (n : N) : string :=
  match w with
  | O => ""
  | S w' => hex_padded w' (n / 16)%N +:+ String (hex_digit n) ""
  end.

(** The text of a store-assigned identifier: 24 hexadecimal digits. *)
Definition object_id (n : N) : string := hex_padded 24 n.

Definition opt_value (o : option string) : value :=
  match o with
  | Some s => VStr s
  | None => VNone
  end.

(** The record in the store's document shape. *)
Definition serialize (c : Credential) : gmap string value :=
  {[ "title" := VStr (cred_title c);
     "username" := VStr (cred_username c);
     "password" := VStr (cred_password c);
     "url" := opt_value (cred_url c);
     "note" := opt_value (cred_note c) ]}.

(** The failure the underlying store has in stock for the next operation. *)
Definition next_fault (st : store) : option exn :=
  match faults st with
  | Some e :: _ => Some e
  | _ => None
  end.

(** The store once an operation has drawn its outcome. *)
Definition consume (st : store) : store :=
  {| collections := collections st; next_id := next_id st; faults := tail (faults st) |}.

(** Modelled from the spec: [database.create_document], which is not in
    [main.py].  Section 4.2: it serializes the record to the store's native
    document shape and inserts it, returning the store-assigned identifier
    as text; it fails by propagating any underlying store error to the
    caller.  A failed insertion writes nothing (section 8: the record is
    not retrievable afterwards). *)
Definition create_document (coll : string) (data : Credential) : action store string :=
  λ st,
    match next_fault st with
    | Some e => (Raise e, consume st)
    | None =>
        let oid := object_id (next_id st) in
        let doc := <["_id" := VObjectId oid]> (serialize data) in
        (Return oid,
         {| collections := <[coll := documents coll st ++ [doc]]> (collections st);
            next_id := N.succ (next_id st);
            faults := tail (faults st) |})
    end.

Definition unmodelled : exn :=
  Exception "Unmodelled" "the pattern is outside the modelled fragment".

(** Modelled from the spec: [database.get_documents], which is not in
    [main.py].  Section 4.2: given a filter expression (empty means match
    all) it returns the full sequence of matching raw documents; it fails by
    propagating any underlying store error to the caller. *)
Definition get_documents (coll : string) (f : filter_expr)
  : action store (list (gmap string value)) :=
  λ st,
    match next_fault st with
    | Some e => (Raise e, consume st)
    | None =>
        match filter_pred f with
        | Pred holds => (Return (List.filter holds (documents coll st)), consume st)
        | BadPattern =>
            (Raise (Exception "OperationFailure" "Regular expression is invalid"),
             consume st)
        | NotModelled => (Raise unmodelled, consume st)
        end
    end.

Definition gw : gateway store :=
  Build_gateway store create_document get_documents.

End Store.

(** ** The vocabulary of the properties *)

(** [q] occurs in [s] when case is ignored. *)
Definition ci_substring (q s : string) : Prop :=
  ∃ before after,
    Store.lower_text s = before +:+ Store.lower_text q +:+ after.

(** The field of the document holds text in which [q] occurs. *)
Definition field_contains (doc : gmap string value) (field q : string) : Prop :=
  ∃ s, doc !! field = Some (VStr s) ∧ ci_substring q s.

(** No character of the text has a meaning of its own in a pattern. *)
Fixpoint plain (q : string) : bool :=
  match q with
  | EmptyString => true
  | String c q' => negb (Store.is_metachar c) && plain q'
  end.

(** The pattern that matches the characters of [q] and nothing else. *)
Fixpoint literal (q : string) : list Store.atom :=
  match q with
  | EmptyString => []
  | String c q' => Store.Char c :: literal q'
  end.

(** The keys of the diagnostic payload and of a listed credential. *)
Definition test_keys : gset string :=
  {[ "backend"; "database"; "database_url"; "database_name";
     "connection_status"; "collections" ]}.

Definition credential_keys : gset string :=
  {[ "id"; "title"; "username"; "password"; "url"; "note";
     "created_at"; "updated_at" ]}.

Definition is_text (j : json) : Prop := ∃ s, j = JStr s.
Definition is_text_or_null (j : json) : Prop := j = JNull ∨ ∃ s, j = JStr s.

(** The JSON object [obj] is a well-shaped rendering of the raw document
    [doc]: it has exactly the eight keys of a listed credential; title,
    username and password are text, the empty text when [doc] does not have
    the field; url, note and the two timestamps are text or null, null when
    [doc] does not have the field. *)
Definition well_shaped (doc : gmap string value) (obj : gmap string json) : Prop :=
  dom obj = credential_keys
  ∧ (∀ k, k ∈ ["title"; "username"; "password"] →
          (∃ v, obj !! k = Some v ∧ is_text v)
          ∧ (doc !! k = None → obj !! k = Some (JStr "")))
  ∧ (∀ k, k ∈ ["url"; "note"; "created_at"; "updated_at"] →
          (∃ v, obj !! k = Some v ∧ is_text_or_null v)
          ∧ (doc !! k = None → obj !! k = Some JNull)).

(** The two timestamp fields, each with the key it is read from. *)
Definition timestamp_fields : list (string * (CredentialOut → option string)) :=
  [ ("created_at", out_created_at); ("updated_at", out_updated_at) ].

(** [o] with another identifier. *)
Definition with_id (id : string) (o : CredentialOut) : CredentialOut :=
  {| out_id := id; out_title := out_title o; out_username := out_username o;
     out_password := out_password o; out_url := out_url o; out_note := out_note o;
     out_created_at := out_created_at o; out_updated_at := out_updated_at o |}.

(** ** Sample data *)

Module Sample.

Definition no_database : probes :=
  {| import_db := Return None; getenv := λ _, None |}.

Definition github : Credential :=
  {| cred_title := "GitHub"; cred_username := "alice"; cred_password := "p@ss";
     cred_url := Some "https://github.com"; cred_note := None |}.

(** A store that holds [docs] in the credential collection and has no
    failure in stock. *)
Definition store_of (docs : list (gmap string value)) : Store.store :=
  {| Store.collections := {[ "credential" := docs ]};
     Store.next_id := N.of_nat (length docs);
     Store.faults := [] |}.

Definition empty_store : Store.store := store_of [].

(** A document with an identifier and a title only. *)
Definition sparse_doc : gmap string value :=
  {[ "_id" := VObjectId "65f0c0ffee0000000000002a"; "title" := VStr "GitHub" ]}.

(** A document whose creation time was stored as text. *)
Definition text_dated_doc : gmap string value :=
  <["created_at" := VStr "2024-03-09"]> sparse_doc.

Definition nine_march : datetime :=
  {| year := 2024; month := 3; day := 9; hour := 7; minute := 5; second := 0;
     microsecond := 0; utcoffset := None |}.

(** A document whose creation time is a datetime, and whose update time is
    stored as an explicit null. *)
Definition dated_doc : gmap string value :=
  <["created_at" := VDatetime nine_march]> (<["updated_at" := VNone]> sparse_doc).

(** The document the store keeps for [github] when it is the first one. *)
Definition github_doc : gmap string value :=
  <["_id" := VObjectId (Store.object_id 0)]> (Store.serialize github).

(** A handle whose listing raises with a message of 67 characters. *)
Definition broken_listing : probes :=
  {| import_db := Return (Some
       {| db_name := Some "vault";
          list_collection_names := Raise (Exception "ServerSelectionTimeoutError"
            "connection refused while selecting a server for the replica set rs0") |});
     getenv := λ name, if String.eqb name "DATABASE_URL" then Some "mongodb://db" else None |}.

(** A handle that lists twelve collections. *)
Definition twelve_collections : probes :=
  {| import_db := Return (Some
       {| db_name := None;
          list_collection_names := Return
            ["c01"; "c02"; "c03"; "c04"; "c05"; "c06"; "c07"; "c08"; "c09"; "c10";
             "c11"; "c12"] |});
     getenv := λ _, None |}.

(** A document whose title holds a backslash. *)
Definition backslash_doc : gmap string value :=
  {[ "_id" := VObjectId "65f0c0ffee0000000000002b"; "title" := VStr "C:\tools";
     "username" := VStr "bob"; "password" := VStr "pw" ]}.

End Sample.

(** ** Further vocabulary *)

(** The keys of a raw document that [to_out] reads ([main.py], lines
    104-111). *)
Definition read_keys : list string :=
  ["_id"; "title"; "username"; "password"; "url"; "note"; "created_at"; "updated_at"].

(** The field is absent from the document or holds text. *)
Definition text_or_absent (doc : gmap string value) (key : string) : Prop :=
  doc !! key = None ∨ ∃ s, doc !! key = Some (VStr s).

(** The field is absent from the document, or holds null or text. *)
Definition text_null_or_absent (doc : gmap string value) (key : string) : Prop :=
  doc !! key = None ∨ doc !! key = Some VNone ∨ ∃ s, doc !! key = Some (VStr s).

(** The field holds a datetime, or is absent or false. *)
Definition datetime_or_false (doc : gmap string value) (key : string) : Prop :=
  truthy (get doc key) = false ∨ ∃ d, doc !! key = Some (VDatetime d).

(** A document whose fields have the kinds of values [to_out] can pass on. *)
Definition mappable (doc : gmap string value) : Prop :=
  text_or_absent doc "title" ∧ text_or_absent doc "username"
  ∧ text_or_absent doc "password"
  ∧ text_null_or_absent doc "url" ∧ text_null_or_absent doc "note"
  ∧ datetime_or_false doc "created_at" ∧ datetime_or_false doc "updated_at".

(** The output of the list endpoint for a credential stored under [oid]. *)
Definition listed (oid : string) (c : Credential) : CredentialOut :=
  {| out_id := oid; out_title := cred_title c; out_username := cred_username c;
     out_password := cred_password c; out_url := cred_url c; out_note := cred_note c;
     out_created_at := None; out_updated_at := None |}.

(** The message of the [AttributeError] that [v.isoformat()] raises for a
    value that is not a datetime. *)
Definition no_isoformat (v : value) : string :=
  "'" +:+ type_name v +:+ "' object has no attribute 'isoformat'".

(** The output mapping accepts the document. *)
Definition accepted (doc : gmap string value) : Prop := ∃ o, to_out doc = Return o.

(** The value is true and is not a datetime. *)
Definition not_a_datetime (v : value) : Prop :=
  truthy v = true ∧ ∀ d, v ≠ VDatetime d.

(** The body of an error response. *)
Definition error_body (detail : string) : body := Object {[ "detail" := JStr detail ]}.

(** The state a request leaves the store in, as the single gateway call of
    its handler leaves it; the three routes without gateway call leave it
    as it is. *)
Definition state_after {S} (gw : gateway S) (r : request) (s : S) : S :=
  match r with
  | POST_api_credentials c => snd (create_document gw "credential" c s)
  | GET_api_credentials q => snd (get_documents gw "credential" (filter_query q) s)
  | _ => s
  end.

Module Fixture.

(** A complete document: every field [to_out] reads, and one it does not. *)
Definition full_doc : gmap string value :=
  {[ "_id" := VObjectId "65f0c0ffee0000000000002c"; "title" := VStr " Mail ";
     "username" := VStr "Carol"; "password" := VStr "s3cr3t";
     "url" := VNone; "note" := VStr "2FA on";
     "created_at" := VDatetime Sample.nine_march; "updated_at" := VInt 0;
     "owner" := VStr "team-a" ]}.

Definition full_out : CredentialOut :=
  {| out_id := "65f0c0ffee0000000000002c"; out_title := " Mail ";
     out_username := "Carol"; out_password := "s3cr3t"; out_url := None;
     out_note := Some "2FA on"; out_created_at := Some "2024-03-09T07:05:00";
     out_updated_at := None |}.

(** A document whose update time is stored as a number of seconds. *)
Definition epoch_doc : gmap string value :=
  <["updated_at" := VInt 1710000000]> Sample.sparse_doc.

(** A document whose title is stored as a number. *)
Definition numbered_doc : gmap string value :=
  {[ "_id" := VObjectId "65f0c0ffee0000000000002d"; "title" := VInt 7 ]}.

(** The errors of a body without title. *)
Definition missing_title : list (gmap string json) :=
  [ {[ "loc" := JList ["body"; "title"]; "msg" := JStr "Field required";
       "type" := JStr "missing" ]} ].

(** A gateway without state whose every call raises a 404 of its own. *)
Definition refusing : gateway unit :=
  Build_gateway unit
    (λ _ _ s, (Raise (HTTPException 404 "no such tenant"), s))
    (λ _ _ s, (Raise (HTTPException 404 "no such tenant"), s)).

(** The import of the handle raises with a message of 60 accented
    characters, two bytes each. *)
Definition accented_listing : probes :=
  {| import_db := Raise (Exception "OperationFailure" (repeat_text 60 "é"));
     getenv := λ _, None |}.

(** The import of the handle raises with a message of 12 characters. *)
Definition import_fails : probes :=
  {| import_db := Raise (Exception "RuntimeError" "bad password");
     getenv := λ name, if String.eqb name "DATABASE_NAME" then Some "" else Some "x" |}.

End Fixture.

(** * Properties *)

(** ** The model on examples *)

Example isoformat_naive :
  isoformat Sample.nine_march = "2024-03-09T07:05:00".
Proof. reflexivity. Qed.

Example isoformat_aware_with_microseconds :
  isoformat (Datetime 2024 3 9 7 5 0 1500 (Some (-330)%Z)) =
    "2024-03-09T07:05:00.001500-05:30".
Proof. reflexivity. Qed.

Example str_of_values :
  str VNone = "None" ∧ str (VBool true) = "True" ∧ str (VInt (-42)) = "-42"
  ∧ str (VDatetime Sample.nine_march) = "2024-03-09 07:05:00".
Proof. repeat split; reflexivity. Qed.

Example to_out_sparse :
  to_out Sample.sparse_doc =
    Return {| out_id := "65f0c0ffee0000000000002a"; out_title := "GitHub";
              out_username := ""; out_password := ""; out_url := None;
              out_note := None; out_created_at := None; out_updated_at := None |}.
Proof. reflexivity. Qed.

Example to_out_null_title :
  to_out (<["title" := VNone]> Sample.sparse_doc) =
    Raise (validation_error "title").
Proof. reflexivity. Qed.

Example compile_patterns :
  Store.regex_compile "a.b" = Store.Compiled [Store.Char "a"; Store.AnyChar; Store.Char "b"]
  ∧ Store.regex_compile "a\.b" = Store.Compiled [Store.Char "a"; Store.Char "."; Store.Char "b"]
  ∧ Store.regex_compile "a\" = Store.Invalid
  ∧ Store.regex_compile "a+b" = Store.Unmodelled.
Proof. repeat split; reflexivity. Qed.

Example first_identifier : Store.object_id 255 = "0000000000000000000000ff".
Proof. reflexivity. Qed.

Example diagnostic_without_database :
  test_database Sample.no_database =
    {[ "backend" := JStr "✅ Running";
       "database" := JStr "⚠️  Available but not initialized";
       "database_url" := JStr "❌ Not Set";
       "database_name" := JStr "❌ Not Set";
       "connection_status" := JStr "Not Connected";
       "collections" := JList [] ]}.
Proof. reflexivity. Qed.

Example create_then_search :
  let '(_, st) := app Store.gw Sample.no_database
                      (POST_api_credentials Sample.github) Sample.empty_store in
  fst (app Store.gw Sample.no_database (GET_api_credentials (Some "git")) st) =
    {| status := 200;
       content := Array [CredentialOut_json
         {| out_id := "000000000000000000000000"; out_title := "GitHub";
            out_username := "alice"; out_password := "p@ss";
            out_url := Some "https://github.com"; out_note := None;
            out_created_at := None; out_updated_at := None |}] |}
  ∧ fst (app Store.gw Sample.no_database (GET_api_credentials (Some "gitlab")) st) =
    {| status := 200; content := Array [] |}.
Proof. split; reflexivity. Qed.

(** ** Text *)

Lemma slice_to_length n s : char_length (slice_to n s) ≤ n.
Proof.
  revert n. induction s as [|c s IH]; intros n; simpl; [lia|].
  destruct (is_continuation c) eqn:Hc; simpl; rewrite ?Hc; [apply IH|].
  destruct n as [|n]; simpl; rewrite ?Hc; [lia|]. specialize (IH n). lia.
Qed.

Lemma slice_to_short n s : char_length s ≤ n → slice_to n s = s.
Proof.
  revert n. induction s as [|c s IH]; intros n; simpl; [done|].
  destruct (is_continuation c); [intros Hlen; f_equal; by apply IH|].
  destruct n as [|n]; [lia|]. intros Hlen. f_equal. apply IH. lia.
Qed.

Example slice_to_counts_characters :
  char_length (repeat_text 60 "é") = 60
  ∧ String.length (repeat_text 60 "é") = 120
  ∧ slice_to 50 (repeat_text 60 "é") = repeat_text 50 "é"
  ∧ slice_to 3 "a✅bcd" = "a✅b".
Proof. repeat split; reflexivity. Qed.

(** ** The greeting routes *)

(** C8: [GET /] and [GET /api/hello] answer 200 with their fixed message,
    for every gateway, environment and store state, and leave the store as
    it was. *)
Theorem greetings_are_fixed {S} (gw : gateway S) (p : probes) (s : S) :
  app gw p GET_root s =
    ({| status := 200;
        content := Object {[ "message" := JStr "Hello from FastAPI Backend!" ]} |}, s)
  ∧ app gw p GET_api_hello s =
    ({| status := 200;
        content := Object {[ "message" := JStr "Hello from the backend API!" ]} |}, s).
Proof. split; reflexivity. Qed.

(** ** The diagnostic route *)

Lemma test_database_keys p : dom (test_database p) = test_keys.
Proof.
  unfold test_database, test_keys.
  destruct (import_db p) as [[db|]|e].
  - destruct (list_collection_names db); rewrite !dom_insert_L; set_solver.
  - rewrite !dom_insert_L; set_solver.
  - destruct e; rewrite !dom_insert_L; set_solver.
Qed.

Lemma test_database_collections p :
  test_database p !! "collections" =
    Some (JList match import_db p with
                | Return (Some db) =>
                    match list_collection_names db with
                    | Return names => take 10 names
                    | Raise _ => []
                    end
                | _ => []
                end).
Proof.
  unfold test_database.
  destruct (import_db p) as [[db|]|e].
  - destruct (list_collection_names db); by simplify_map_eq.
  - by simplify_map_eq.
  - destruct e; by simplify_map_eq.
Qed.

Lemma test_database_status p :
  test_database p !! "database" =
    Some (JStr match import_db p with
               | Return (Some db) =>
                   match list_collection_names db with
                   | Return _ => "✅ Connected & Working"
                   | Raise e => "⚠️  Connected but Error: " +:+ slice_to 50 (str_exn e)
                   end
               | Return None => "⚠️  Available but not initialized"
               | Raise (ImportError _) =>
                   "❌ Database module not found (run enable-database first)"
               | Raise e => "❌ Error: " +:+ slice_to 50 (str_exn e)
               end).
Proof.
  unfold test_database.
  destruct (import_db p) as [[db|]|e].
  - destruct (list_collection_names db); by simplify_map_eq.
  - by simplify_map_eq.
  - destruct e; by simplify_map_eq.
Qed.

(** C4: [GET /test] never fails.  Whatever the import of the store handle
    and the listing of the collections do, the route answers 200 with a
    payload of the six fixed keys and leaves the store alone; an exception
    of the import or of the listing ends up in the text under ["database"],
    its message cut to its first 50 characters, whatever bytes they take
    (an [ImportError] of the import is reported by a fixed text). *)
Theorem test_database_never_fails {S} (gw : gateway S) (p : probes) (s : S) :
  ∃ payload text,
    app gw p GET_test s = ({| status := 200; content := Object payload |}, s)
    ∧ dom payload = test_keys
    ∧ payload !! "database" = Some (JStr text)
    ∧ (∀ db e, import_db p = Return (Some db) →
               list_collection_names db = Raise e →
               text = "⚠️  Connected but Error: " +:+ slice_to 50 (str_exn e)
               ∧ char_length (slice_to 50 (str_exn e)) ≤ 50)
    ∧ (∀ msg, import_db p = Raise (ImportError msg) →
              text = "❌ Database module not found (run enable-database first)")
    ∧ (∀ e, import_db p = Raise e → (∀ msg, e ≠ ImportError msg) →
            text = "❌ Error: " +:+ slice_to 50 (str_exn e)
            ∧ char_length (slice_to 50 (str_exn e)) ≤ 50).
Proof.
  eexists (test_database p), _.
  split; [reflexivity|]. split; [apply test_database_keys|].
  split; [apply test_database_status|].
  split; [|split].
  - intros db e -> ->. split; [done|apply slice_to_length].
  - by intros msg ->.
  - intros e -> Hne. split; [|apply slice_to_length].
    destruct e; try done. by destruct (Hne msg).
Qed.

Lemma test_database_witness :
  ∃ payload,
    app Store.gw Sample.broken_listing GET_test Sample.empty_store =
      ({| status := 200; content := Object payload |}, Sample.empty_store)
    ∧ payload !! "database" =
        Some (JStr ("⚠️  Connected but Error: "
                    +:+ "connection refused while selecting a server for th"))
    ∧ payload !! "database_url" = Some (JStr "✅ Set")
    ∧ payload !! "database_name" = Some (JStr "❌ Not Set")
    ∧ char_length "connection refused while selecting a server for th" ≤ 50.
Proof.
  destruct (test_database_never_fails Store.gw Sample.broken_listing Sample.empty_store)
    as (payload & text & Happ & _ & Hdb & Hlisting & _).
  exists payload. split; [exact Happ|].
  injection Happ as <-.
  destruct (Hlisting _ _ eq_refl eq_refl) as [-> Hbound].
  split; [by rewrite Hdb|]. split; [reflexivity|]. split; [reflexivity|exact Hbound].
Defined.

(** C7: the ["collections"] entry of every [GET /test] response holds at
    most ten names: the first ten the store lists when the listing works,
    and none when the handle is absent, its import raises or the listing
    raises. *)
Theorem collections_first_ten {S} (gw : gateway S) (p : probes) (s : S) :
  ∃ payload names,
    fst (app gw p GET_test s) = {| status := 200; content := Object payload |}
    ∧ payload !! "collections" = Some (JList names)
    ∧ length names ≤ 10
    ∧ (∀ db listed, import_db p = Return (Some db) →
                    list_collection_names db = Return listed →
                    names = take 10 listed)
    ∧ (∀ db e, import_db p = Return (Some db) →
               list_collection_names db = Raise e → names = [])
    ∧ (import_db p = Return None → names = [])
    ∧ (∀ e, import_db p = Raise e → names = []).
Proof.
  eexists (test_database p), _.
  split; [reflexivity|]. split; [apply test_database_collections|].
  split.
  - destruct (import_db p) as [[db|]|e]; simpl; try lia.
    destruct (list_collection_names db); simpl; try lia.
    rewrite length_take. lia.
  - repeat split.
    + by intros db listed -> ->.
    + by intros db e -> ->.
    + by intros ->.
    + by intros e ->.
Qed.

Lemma collections_witness :
  ∃ payload,
    fst (app Store.gw Sample.twelve_collections GET_test Sample.empty_store) =
      {| status := 200; content := Object payload |}
    ∧ payload !! "collections" =
        Some (JList ["c01"; "c02"; "c03"; "c04"; "c05"; "c06"; "c07"; "c08"; "c09"; "c10"]).
Proof.
  destruct (collections_first_ten Store.gw Sample.twelve_collections Sample.empty_store)
    as (payload & names & Happ & Hnames & _ & Hlisted & _).
  exists payload. split; [exact Happ|].
  rewrite Hnames. by rewrite (Hlisted _ _ eq_refl eq_refl).
Defined.

(** ** The output mapping *)

Lemma comprehension_Forall2 {A B} (f : A → outcome B) l bs :
  comprehension f l = Return bs → Forall2 (λ a b, f a = Return b) l bs.
Proof.
  revert bs. induction l as [|a l IH]; intros bs; simpl.
  - intros [= <-]. constructor.
  - destruct (f a) as [b|e] eqn:Hfa; simpl; [|done].
    destruct (comprehension f l) as [bs'|e] eqn:Hl; simpl; [|done].
    intros [= <-]. constructor; auto.
Qed.

Lemma comprehension_total {A B} (f : A → outcome B) l :
  Forall (λ a, ∃ b, f a = Return b) l → ∃ bs, comprehension f l = Return bs.
Proof.
  induction 1 as [|a l [b Hb] _ [bs Hbs]]; simpl; [by eexists|].
  rewrite Hb, Hbs. by eexists.
Qed.

Lemma timestamp_text_cases doc key :
  timestamp_text doc key =
    match get doc key with
    | VDatetime d => Return (VStr (isoformat d))
    | v => if truthy v
           then Raise (AttributeError
                  ("'" +:+ type_name v +:+ "' object has no attribute 'isoformat'"))
           else Return VNone
    end.
Proof. unfold timestamp_text. by destruct (get doc key) as [|[]| | | |]. Qed.

(** What a successful mapping says about the document it was given. *)
Lemma to_out_inv doc o :
  to_out doc = Return o →
  ∃ created updated,
    timestamp_text doc "created_at" = Return created
    ∧ timestamp_text doc "updated_at" = Return updated
    ∧ out_id o = str (get doc "_id")
    ∧ get_or doc "title" (VStr "") = VStr (out_title o)
    ∧ get_or doc "username" (VStr "") = VStr (out_username o)
    ∧ get_or doc "password" (VStr "") = VStr (out_password o)
    ∧ optional_text_field "url" (get doc "url") = Return (out_url o)
    ∧ optional_text_field "note" (get doc "note") = Return (out_note o)
    ∧ optional_text_field "created_at" created = Return (out_created_at o)
    ∧ optional_text_field "updated_at" updated = Return (out_updated_at o).
Proof.
  unfold to_out, CredentialOut_new.
  destruct (timestamp_text doc "created_at") as [created|] eqn:Hc; simpl; [|done].
  destruct (timestamp_text doc "updated_at") as [updated|] eqn:Hu; simpl; [|done].
  destruct (get_or doc "title" _) eqn:Ht; simpl; try done.
  destruct (get_or doc "username" _) eqn:Hn; simpl; try done.
  destruct (get_or doc "password" _) eqn:Hp; simpl; try done.
  destruct (optional_text_field "url" _) eqn:Hurl; simpl; try done.
  destruct (optional_text_field "note" _) eqn:Hnote; simpl; try done.
  destruct (optional_text_field "created_at" _) eqn:Hca; simpl; try done.
  destruct (optional_text_field "updated_at" _) eqn:Hua; simpl; try done.
  intros [= <-]. by exists created, updated.
Qed.

Lemma opt_json_text_or_null o : is_text_or_null (opt_json o).
Proof. destruct o; [right; by eexists|by left]. Qed.

Lemma timestamp_absent doc key : doc !! key = None → timestamp_text doc key = Return VNone.
Proof. intros H. unfold timestamp_text, get. by rewrite H. Qed.

(** [H] equates a default with the field it was stored in. *)
Ltac use_default H := simpl in H; injection H as H; rewrite <- H.

(** The JSON object of one successfully mapped document. *)
Lemma to_out_json doc o :
  to_out doc = Return o → well_shaped doc (CredentialOut_json o).
Proof.
  intros (created & updated & Hc & Hu & _ & Ht & Hn & Hp & Hurl & Hnote & Hca & Hua)%to_out_inv.
  split; [|split].
  - unfold CredentialOut_json, credential_keys. rewrite !dom_insert_L. set_solver.
  - intros k Hk. unfold CredentialOut_json, get_or in *.
    repeat (apply elem_of_cons in Hk as [->|Hk]); [| | |by apply elem_of_nil in Hk].
    + simplify_map_eq. split; [eexists; split; [reflexivity|by eexists]|].
      intros Hnone. rewrite Hnone in Ht. by use_default Ht.
    + simplify_map_eq. split; [eexists; split; [reflexivity|by eexists]|].
      intros Hnone. rewrite Hnone in Hn. by use_default Hn.
    + simplify_map_eq. split; [eexists; split; [reflexivity|by eexists]|].
      intros Hnone. rewrite Hnone in Hp. by use_default Hp.
  - intros k Hk. unfold CredentialOut_json, get in *.
    repeat (apply elem_of_cons in Hk as [->|Hk]); [| | | |by apply elem_of_nil in Hk].
    + simplify_map_eq. split; [eexists; split; [reflexivity|apply opt_json_text_or_null]|].
      intros Hnone. rewrite Hnone in Hurl. by use_default Hurl.
    + simplify_map_eq. split; [eexists; split; [reflexivity|apply opt_json_text_or_null]|].
      intros Hnone. rewrite Hnone in Hnote. by use_default Hnote.
    + simplify_map_eq. split; [eexists; split; [reflexivity|apply opt_json_text_or_null]|].
      intros Hnone. rewrite (timestamp_absent _ _ Hnone) in Hc.
      injection Hc as <-. by use_default Hca.
    + simplify_map_eq. split; [eexists; split; [reflexivity|apply opt_json_text_or_null]|].
      intros Hnone. rewrite (timestamp_absent _ _ Hnone) in Hu.
      injection Hu as <-. by use_default Hua.
Qed.

(** The list handler, step by step. *)
Lemma list_credentials_run {S} (gw : gateway S) q s :
  list_credentials gw q s =
    match get_documents gw "credential" (filter_query q) s with
    | (Return docs, s') =>
        match comprehension to_out docs with
        | Return outs => (Return outs, s')
        | Raise e => (Raise (HTTPException 500 (str_exn e)), s')
        end
    | (Raise e, s') => (Raise (HTTPException 500 (str_exn e)), s')
    end.
Proof.
  unfold list_credentials, try_except, bind, lift, raise.
  destruct (get_documents gw "credential" (filter_query q) s) as [[docs|e] s']; [|done].
  by destruct (comprehension to_out docs).
Qed.

Lemma comprehension_raises {A B} (f : A → outcome B) l a e :
  a ∈ l → f a = Raise e → ∃ e', comprehension f l = Raise e'.
Proof.
  intros Hin Hfa. induction l as [|a' l IH]; [by apply elem_of_nil in Hin|].
  apply elem_of_cons in Hin as [<-|Hin]; simpl.
  - rewrite Hfa. by eexists.
  - destruct (f a'); simpl; [|by eexists].
    destruct (IH Hin) as [e' ->]. by eexists.
Qed.

Lemma to_out_bad_timestamp doc key :
  key ∈ ["created_at"; "updated_at"] →
  truthy (get doc key) = true →
  (∀ d, get doc key ≠ VDatetime d) →
  ∃ msg, to_out doc = Raise (AttributeError msg).
Proof.
  intros Hkey Htrue Hnot.
  assert (∃ msg, timestamp_text doc key = Raise (AttributeError msg)) as [msg Hmsg].
  { rewrite timestamp_text_cases.
    destruct (get doc key) eqn:Hget; simpl in *; try done;
      try (rewrite Htrue); try by eexists.
    by destruct (Hnot d). }
  unfold to_out.
  repeat (apply elem_of_cons in Hkey as [->|Hkey]); [| |by apply elem_of_nil in Hkey].
  - rewrite Hmsg. by eexists.
  - rewrite Hmsg. rewrite (timestamp_text_cases doc "created_at").
    destruct (get doc "created_at") as [|[]|n|t| |]; simpl; try by eexists.
    + destruct (negb (n =? 0)%Z); simpl; by eexists.
    + destruct (negb (String.eqb t "")); simpl; by eexists.
Qed.

(** C3, as the claim has it, fails: a creation time stored as text is
    present and is not a datetime, and the mapping raises instead of giving
    null; the list endpoint answers 500. *)
Lemma text_timestamp_is_an_error :
  Sample.text_dated_doc !! "created_at" = Some (VStr "2024-03-09")
  ∧ to_out Sample.text_dated_doc =
      Raise (AttributeError "'str' object has no attribute 'isoformat'")
  ∧ app Store.gw Sample.no_database (GET_api_credentials None)
        (Sample.store_of [Sample.text_dated_doc]) =
      ({| status := 500;
          content := Object {[ "detail" :=
                       JStr "'str' object has no attribute 'isoformat'" ]} |},
       Sample.store_of [Sample.text_dated_doc]).
Proof. repeat split; reflexivity. Qed.

(** ** The identifier *)

Lemma get_insert_ne doc key key' v : key ≠ key' → get (<[key := v]> doc) key' = get doc key'.
Proof. intros. unfold get. by rewrite lookup_insert_ne. Qed.

Lemma get_delete_ne doc key key' : key ≠ key' → get (delete key doc) key' = get doc key'.
Proof. intros. unfold get. by rewrite lookup_delete_ne. Qed.

Lemma get_insert_eq doc key v : get (<[key := v]> doc) key = v.
Proof. unfold get. by rewrite lookup_insert_eq. Qed.

Lemma get_delete_eq doc key : get (delete key doc) key = VNone.
Proof. unfold get. by rewrite lookup_delete_eq. Qed.

Lemma get_or_insert_ne doc key key' v dflt :
  key ≠ key' → get_or (<[key := v]> doc) key' dflt = get_or doc key' dflt.
Proof. intros. unfold get_or. by rewrite lookup_insert_ne. Qed.

Lemma get_or_delete_ne doc key key' dflt :
  key ≠ key' → get_or (delete key doc) key' dflt = get_or doc key' dflt.
Proof. intros. unfold get_or. by rewrite lookup_delete_ne. Qed.

(** The mapping of a document with identifier [v] is the mapping of the
    document without identifier, with [str(v)] as its id: whether the
    mapping returns or raises does not depend on the identifier. *)
Lemma to_out_insert_id doc v :
  to_out (<["_id" := v]> doc) =
    do o <- to_out (delete "_id" doc); Return (with_id (str v) o).
Proof.
  unfold to_out, timestamp_text.
  rewrite get_insert_eq, get_delete_eq.
  rewrite !get_insert_ne, !get_delete_ne, !get_or_insert_ne, !get_or_delete_ne by done.
  destruct (if truthy (get doc "created_at") then _ else _) as [created|]; simpl; [|done].
  destruct (if truthy (get doc "updated_at") then _ else _) as [updated|]; simpl; [|done].
  unfold CredentialOut_new; simpl.
  destruct (text_field "title" _); simpl; [|done].
  destruct (text_field "username" _); simpl; [|done].
  destruct (text_field "password" _); simpl; [|done].
  destruct (optional_text_field "url" _); simpl; [|done].
  destruct (optional_text_field "note" _); simpl; [|done].
  destruct (optional_text_field "created_at" _); simpl; [|done].
  by destruct (optional_text_field "updated_at" _).
Qed.

(** C10: the id of a mapped document is the text of its stored [_id]; when
    [_id] is absent the id is the text [None]; the key ["id"] is in the JSON
    object; and the identifier never decides whether the mapping returns:
    with any identifier, or none, the mapping of a document returns or
    raises alike. *)
Theorem id_is_text_of_identifier :
  (∀ doc o, to_out doc = Return o →
      out_id o = str (get doc "_id")
      ∧ CredentialOut_json o !! "id" = Some (JStr (str (get doc "_id")))
      ∧ (doc !! "_id" = None → out_id o = "None"))
  ∧ (∀ doc v,
      to_out (<["_id" := v]> doc) =
        do o <- to_out (delete "_id" doc); Return (with_id (str v) o))
  ∧ (∀ doc e, to_out (delete "_id" doc) = Raise e →
              ∀ v, to_out (<["_id" := v]> doc) = Raise e)
  ∧ (∀ doc v o, to_out (<["_id" := v]> doc) = Return o →
                to_out (delete "_id" doc) = Return (with_id "None" o)).
Proof.
  split; [|split; [|split]].
  - intros doc o (_ & _ & _ & _ & Hid & _)%to_out_inv. split; [done|]. split.
    + unfold CredentialOut_json. simplify_map_eq. by rewrite Hid.
    + intros Hnone. rewrite Hid. unfold get. by rewrite Hnone.
  - apply to_out_insert_id.
  - intros doc e He v. by rewrite to_out_insert_id, He.
  - intros doc v o. rewrite to_out_insert_id.
    destruct (to_out (delete "_id" doc)) as [o'|] eqn:Ho'; simpl; [|done].
    intros [= <-]. f_equal.
    apply to_out_inv in Ho' as (_ & _ & _ & _ & Hid & _).
    unfold get in Hid. rewrite lookup_delete_eq in Hid. simpl in Hid.
    destruct o'; simpl in *. unfold with_id; simpl. by rewrite Hid.
Qed.

Lemma id_witness :
  to_out (delete "_id" Sample.sparse_doc) =
    Return {| out_id := "None"; out_title := "GitHub"; out_username := "";
              out_password := ""; out_url := None; out_note := None;
              out_created_at := None; out_updated_at := None |}.
Proof.
  destruct id_is_text_of_identifier as (_ & _ & _ & Hnone).
  apply (Hnone Sample.sparse_doc (VObjectId "65f0c0ffee0000000000002a")
           {| out_id := "65f0c0ffee0000000000002a"; out_title := "GitHub";
              out_username := ""; out_password := ""; out_url := None;
              out_note := None; out_created_at := None; out_updated_at := None |}).
  reflexivity.
Defined.

(** ** Creating and listing against the store *)

(** The create handler, step by step. *)
Lemma create_credential_run {S} (gw : gateway S) c s :
  create_credential gw c s =
    match create_document gw "credential" c s with
    | (Return inserted_id, s') => (Return {| resp_id := inserted_id |}, s')
    | (Raise e, s') => (Raise (HTTPException 500 (str_exn e)), s')
    end.
Proof.
  unfold create_credential, try_except, bind, ret, raise.
  by destruct (create_document gw "credential" c s) as [[oid|e] s'].
Qed.

(** C9: a list request with the empty text as [q] is a list request without
    [q].  Both build the empty filter, both make the same single call to the
    gateway and answer alike; when that call returns and every document
    maps, the answer is 200 with one object per document the store returned,
    in order; and the modelled store returns every document of the
    credential collection for the empty filter. *)
Theorem empty_query_is_no_query {S} (gw : gateway S) (p : probes) (s : S) :
  filter_query (Some "") = MatchAll
  ∧ filter_query None = MatchAll
  ∧ app gw p (GET_api_credentials (Some "")) s = app gw p (GET_api_credentials None) s
  ∧ (∀ docs s1 outs,
      get_documents gw "credential" MatchAll s = (Return docs, s1) →
      comprehension to_out docs = Return outs →
      app gw p (GET_api_credentials None) s =
        ({| status := 200; content := Array (CredentialOut_json <$> outs) |}, s1)
      ∧ Forall2 (λ doc o, to_out doc = Return o) docs outs)
  ∧ (∀ st, Store.next_fault st = None →
      Store.get_documents "credential" MatchAll st =
        (Return (Store.documents "credential" st), Store.consume st)).
Proof.
  split; [done|]. split; [done|]. split; [done|]. split.
  - intros docs s1 outs Hdocs Houts. split.
    + simpl. rewrite list_credentials_run. simpl. by rewrite Hdocs, Houts.
    + by apply comprehension_Forall2.
  - intros st Hok. unfold Store.get_documents. rewrite Hok. simpl.
    f_equal. f_equal. induction (Store.documents "credential" st) as [|d l IH]; [done|].
    simpl. by rewrite IH.
Qed.

Lemma empty_query_witness :
  app Store.gw Sample.no_database (GET_api_credentials None)
      (Sample.store_of [Sample.sparse_doc; Sample.dated_doc]) =
    ({| status := 200;
        content := Array (CredentialOut_json <$>
          [ {| out_id := "65f0c0ffee0000000000002a"; out_title := "GitHub";
               out_username := ""; out_password := ""; out_url := None;
               out_note := None; out_created_at := None; out_updated_at := None |};
            {| out_id := "65f0c0ffee0000000000002a"; out_title := "GitHub";
               out_username := ""; out_password := ""; out_url := None;
               out_note := None; out_created_at := Some "2024-03-09T07:05:00";
               out_updated_at := None |} ]) |},
     Sample.store_of [Sample.sparse_doc; Sample.dated_doc]).
Proof.
  destruct (empty_query_is_no_query Store.gw Sample.no_database
              (Sample.store_of [Sample.sparse_doc; Sample.dated_doc]))
    as (_ & _ & _ & Hall & _).
  apply (Hall [Sample.sparse_doc; Sample.dated_doc]); reflexivity.
Defined.

Lemma filter_sublist {A} (f : A → bool) l : sublist (List.filter f l) l.
Proof.
  induction l as [|a l IH]; simpl; [constructor|].
  destruct (f a); by constructor.
Qed.

(** C5: a create call that succeeds makes one [create_document] call on the
    credential collection and answers 200 with an object whose only key is
    ["id"], holding the identifier that call returned, and it ends in the
    state that call left, for every gateway; in the modelled store the call
    appends exactly one document, the record with its fresh identifier, to
    the credential collection and changes no other collection. *)
Theorem create_inserts_one {S} (gw : gateway S) (p : probes) (c : Credential) :
  (∀ s oid s1,
      create_document gw "credential" c s = (Return oid, s1) →
      app gw p (POST_api_credentials c) s =
        ({| status := 200; content := Object {[ "id" := JStr oid ]} |}, s1))
  ∧ (∀ st,
      Store.next_fault st = None →
      ∃ oid st',
        app Store.gw p (POST_api_credentials c) st =
          ({| status := 200; content := Object {[ "id" := JStr oid ]} |}, st')
        ∧ Store.documents "credential" st' =
            Store.documents "credential" st
              ++ [<["_id" := VObjectId oid]> (Store.serialize c)]
        ∧ length (Store.documents "credential" st') =
            Datatypes.S (length (Store.documents "credential" st))
        ∧ (∀ coll, coll ≠ "credential" →
                   Store.documents coll st' = Store.documents coll st)).
Proof.
  split.
  { intros s oid s1 H. simpl. by rewrite create_credential_run, H. }
  intros st Hok.
  eexists _, _. split.
  { simpl. rewrite create_credential_run. simpl.
    unfold Store.create_document. rewrite Hok. reflexivity. }
  split; [|split].
  - unfold Store.documents at 1. simpl. by rewrite lookup_insert_eq.
  - unfold Store.documents at 1. simpl. rewrite lookup_insert_eq. simpl.
    rewrite length_app. simpl. lia.
  - intros coll Hne. unfold Store.documents at 1. simpl.
    by rewrite lookup_insert_ne.
Qed.

Lemma create_witness :
  ∃ oid st',
    app Store.gw Sample.no_database (POST_api_credentials Sample.github)
        Sample.empty_store =
      ({| status := 200; content := Object {[ "id" := JStr oid ]} |}, st')
    ∧ Store.documents "credential" st' =
        Store.documents "credential" Sample.empty_store
          ++ [<["_id" := VObjectId oid]> (Store.serialize Sample.github)]
    ∧ length (Store.documents "credential" st') =
        Datatypes.S (length (Store.documents "credential" Sample.empty_store))
    ∧ (∀ coll, coll ≠ "credential" →
               Store.documents coll st' = Store.documents coll Sample.empty_store).
Proof.
  apply (proj2 (create_inserts_one Store.gw Sample.no_database Sample.github)
           Sample.empty_store).
  reflexivity.
Defined.

(** C6: when the store raises during a create or a list, the endpoint
    answers 500 with the text of the exception as detail, and ends in the
    state the failed call left, for every gateway; in the modelled store a
    failed create leaves every collection as it was, so a later list
    returns only mappings of documents that were stored before. *)
Theorem store_failure_is_500 {S} (gw : gateway S) (p : probes) :
  (∀ c s e s1,
      create_document gw "credential" c s = (Raise e, s1) →
      app gw p (POST_api_credentials c) s =
        ({| status := 500; content := Object {[ "detail" := JStr (str_exn e) ]} |}, s1))
  ∧ (∀ q s e s1,
      get_documents gw "credential" (filter_query q) s = (Raise e, s1) →
      app gw p (GET_api_credentials q) s =
        ({| status := 500; content := Object {[ "detail" := JStr (str_exn e) ]} |}, s1))
  ∧ (∀ c st e,
      Store.next_fault st = Some e →
      app Store.gw p (POST_api_credentials c) st =
        ({| status := 500; content := Object {[ "detail" := JStr (str_exn e) ]} |},
         Store.consume st)
      ∧ Store.collections (Store.consume st) = Store.collections st
      ∧ (∀ q outs st'',
          list_credentials Store.gw q (Store.consume st) = (Return outs, st'') →
          ∃ docs, sublist docs (Store.documents "credential" st)
                  ∧ Forall2 (λ doc o, to_out doc = Return o) docs outs)).
Proof.
  split; [|split].
  - intros c s e s1 H. simpl. by rewrite create_credential_run, H.
  - intros q s e s1 H. simpl. by rewrite list_credentials_run, H.
  - intros c st e Hfail. split; [|split; [done|]].
    + simpl. rewrite create_credential_run. simpl.
      unfold Store.create_document. by rewrite Hfail.
    + intros q outs st''. rewrite list_credentials_run. simpl.
      unfold Store.get_documents.
      destruct (Store.next_fault (Store.consume st)); [done|].
      destruct (Store.filter_pred (filter_query q)) as [holds| |]; try done.
      destruct (comprehension to_out _) as [outs'|] eqn:Houts; [|done].
      intros [= <- <-]. eexists. split; [|by apply comprehension_Forall2].
      apply filter_sublist.
Qed.

Lemma store_failure_witness :
  let st := {| Store.collections := {[ "credential" := [Sample.sparse_doc] ]};
               Store.next_id := 1;
               Store.faults := [Some (Exception "ServerSelectionTimeoutError" "no servers")] |} in
  app Store.gw Sample.no_database (POST_api_credentials Sample.github) st =
    ({| status := 500; content := Object {[ "detail" := JStr "no servers" ]} |},
     Store.consume st)
  ∧ app Store.gw Sample.no_database (GET_api_credentials None) st =
    ({| status := 500; content := Object {[ "detail" := JStr "no servers" ]} |},
     Store.consume st).
Proof.
  intros st.
  destruct (store_failure_is_500 Store.gw Sample.no_database) as (Hcreate & Hlist & _).
  split.
  - apply (Hcreate Sample.github st
             (Exception "ServerSelectionTimeoutError" "no servers")). reflexivity.
  - apply (Hlist None st (Exception "ServerSelectionTimeoutError" "no servers")).
    reflexivity.
Defined.

(** ** The filter of the list endpoint *)

Lemma match_here_literal q s :
  Store.match_here true (literal q) s = true ↔
  ∃ after, Store.lower_text s = Store.lower_text q +:+ after.
Proof.
  revert s. induction q as [|c q IH]; intros s; simpl.
  - split; [by eexists|done].
  - destruct s as [|x s]; simpl.
    + split; [done|]. by intros [after [=]].
    + rewrite andb_true_iff, IH. split.
      * intros [Hc [after Hafter]]. exists after.
        apply Ascii.eqb_eq in Hc. by rewrite Hc, Hafter.
      * intros [after [= Hx Hafter]]. split; [|by eexists].
        apply Ascii.eqb_eq. done.
Qed.

Lemma search_literal q s :
  Store.search true (literal q) s = true ↔ ci_substring q s.
Proof.
  unfold ci_substring. induction s as [|x s IH]; simpl.
  - rewrite orb_false_r, match_here_literal. simpl. split.
    + intros [after Hafter]. by exists "", after.
    + intros ([|a before] & after & Hafter); [by exists after|done].
  - rewrite orb_true_iff, match_here_literal, IH. simpl. split.
    + intros [[after Hafter]|(before & after & Hafter)].
      * by exists "", after.
      * exists (String (Store.lower x) before), after. simpl. by rewrite Hafter.
    + intros ([|a before] & after & Hafter).
      * left. by exists after.
      * right. injection Hafter as _ Hafter. by exists before, after.
Qed.

Lemma not_metachar c :
  Store.is_metachar c = false → Ascii.eqb c "." = false ∧ Ascii.eqb c "\" = false.
Proof.
  intros H. split; apply Ascii.eqb_neq; intros ->; done.
Qed.

Lemma compile_plain q : plain q = true → Store.regex_compile q = Store.Compiled (literal q).
Proof.
  induction q as [|c q IH]; simpl; [done|].
  intros [Hc Hq]%andb_true_iff. apply negb_true_iff in Hc.
  destruct (not_metachar c Hc) as [-> ->]. rewrite Hc, (IH Hq). done.
Qed.

(** X1: on a text without pattern characters the filter of the list endpoint is
    the substring search of the specification: the modelled store returns
    exactly the documents of the credential collection whose title or
    username is a text in which [q] occurs, case ignored. *)
Theorem plain_query_selects_substrings (q : string) (st : Store.store) :
  q ≠ "" → plain q = true → Store.next_fault st = None →
  ∃ docs,
    Store.get_documents "credential" (filter_query (Some q)) st =
      (Return docs, Store.consume st)
    ∧ ∀ doc, doc ∈ docs ↔
        doc ∈ Store.documents "credential" st
        ∧ (field_contains doc "title" q ∨ field_contains doc "username" q).
Proof.
  intros Hne Hplain Hok.
  unfold filter_query, Store.get_documents. simpl.
  destruct (String.eqb_spec q "") as [|_]; [done|]. simpl.
  rewrite Hok, (compile_plain q Hplain). simpl.
  eexists. split; [done|].
  intros doc. rewrite !list_elem_of_In, filter_In, <- !list_elem_of_In.
  apply and_iff_compat_l. rewrite orb_false_r, orb_true_iff.
  unfold field_contains.
  split.
  - intros [H|H]; [left|right].
    + destruct (doc !! "title") as [[]|]; try done.
      eexists; split; [done|]. by apply search_literal.
    + destruct (doc !! "username") as [[]|]; try done.
      eexists; split; [done|]. by apply search_literal.
  - intros [(s & -> & H)|(s & -> & H)]; [left|right]; by apply search_literal.
Qed.

Lemma plain_query_witness :
  ∃ docs,
    Store.get_documents "credential" (filter_query (Some "HUB"))
        (Sample.store_of [Sample.github_doc; Sample.sparse_doc]) =
      (Return docs, Store.consume (Sample.store_of [Sample.github_doc; Sample.sparse_doc]))
    ∧ ∀ doc, doc ∈ docs ↔
        doc ∈ Store.documents "credential"
                (Sample.store_of [Sample.github_doc; Sample.sparse_doc])
        ∧ (field_contains doc "title" "HUB" ∨ field_contains doc "username" "HUB").
Proof.
  apply (plain_query_selects_substrings "HUB"
           (Sample.store_of [Sample.github_doc; Sample.sparse_doc]));
    [discriminate|reflexivity|reflexivity].
Defined.

Lemma not_field_contains doc field q s :
  doc !! field = Some (VStr s) →
  Store.search true (literal q) s = false →
  ¬ field_contains doc field q.
Proof.
  intros Hs Hsearch (s' & Hs' & Hsub). rewrite Hs in Hs'. injection Hs' as <-.
  apply search_literal in Hsub. congruence.
Qed.

(** C1 at [q = "."]: the text [.] occurs neither in the title nor in the
    username of the stored credential, and the list endpoint returns the
    credential all the same, because the store reads [q] as a pattern in
    which [.] stands for any character.  At [q = "\"], which occurs in the
    title of the second store's credential, the store refuses the pattern
    and the endpoint answers 500. *)
Theorem wildcard_query_lists_non_matching :
  (¬ field_contains Sample.github_doc "title" "."
   ∧ ¬ field_contains Sample.github_doc "username" "."
   ∧ app Store.gw Sample.no_database (GET_api_credentials (Some "."))
         (Sample.store_of [Sample.github_doc]) =
       ({| status := 200;
           content := Array [CredentialOut_json
             {| out_id := "000000000000000000000000"; out_title := "GitHub";
                out_username := "alice"; out_password := "p@ss";
                out_url := Some "https://github.com"; out_note := None;
                out_created_at := None; out_updated_at := None |}] |},
        Sample.store_of [Sample.github_doc]))
  ∧ (field_contains Sample.backslash_doc "title" "\"
     ∧ status (fst (app Store.gw Sample.no_database (GET_api_credentials (Some "\"))
                        (Sample.store_of [Sample.backslash_doc]))) = 500).
Proof.
  split; [split; [|split]|split].
  - by apply (not_field_contains _ _ _ "GitHub").
  - by apply (not_field_contains _ _ _ "alice").
  - reflexivity.
  - exists "C:\tools". split; [reflexivity|]. by apply search_literal.
  - reflexivity.
Qed.

(** * Further properties of the handlers *)

(** ** The diagnostic route, field by field *)

Lemma test_database_env p :
  test_database p !! "database_url" =
    Some (JStr (if env_set p "DATABASE_URL" then "✅ Set" else "❌ Not Set"))
  ∧ test_database p !! "database_name" =
    Some (JStr (if env_set p "DATABASE_NAME" then "✅ Set" else "❌ Not Set")).
Proof.
  unfold test_database.
  destruct (import_db p) as [[db|]|e].
  - destruct (list_collection_names db); by simplify_map_eq.
  - by simplify_map_eq.
  - destruct e; by simplify_map_eq.
Qed.

Lemma test_database_connection p :
  test_database p !! "backend" = Some (JStr "✅ Running")
  ∧ test_database p !! "connection_status" =
      Some (JStr match import_db p with
                 | Return (Some _) => "Connected"
                 | _ => "Not Connected"
                 end).
Proof.
  unfold test_database.
  destruct (import_db p) as [[db|]|e].
  - destruct (list_collection_names db); by simplify_map_eq.
  - by simplify_map_eq.
  - destruct e; by simplify_map_eq.
Qed.

Lemma env_set_true p var v : getenv p var = Some v → v ≠ "" → env_set p var = true.
Proof.
  intros Hv Hne. unfold env_set. rewrite Hv. simpl.
  by destruct (String.eqb_spec v "").
Qed.

Lemma env_set_false p var :
  getenv p var = None ∨ getenv p var = Some "" → env_set p var = false.
Proof. unfold env_set. by intros [->| ->]. Qed.

(** X3: the ["database_url"] and ["database_name"] entries of the
    diagnostic payload follow the environment alone, whatever the probe of
    the store gave: the entry says set when its variable holds a text that
    is not empty, and not set when the variable is unset or empty.  What the
    handler wrote there for a present handle (a fixed text, the name of the
    database) is overwritten. *)
Theorem environment_entries_follow_the_environment (p : probes) (key var : string) :
  (key, var) ∈ [("database_url", "DATABASE_URL"); ("database_name", "DATABASE_NAME")] →
  (∀ v, getenv p var = Some v → v ≠ "" →
        test_database p !! key = Some (JStr "✅ Set"))
  ∧ (getenv p var = None ∨ getenv p var = Some "" →
        test_database p !! key = Some (JStr "❌ Not Set")).
Proof.
  intros Hin. destruct (test_database_env p) as [Hurl Hname].
  repeat (apply elem_of_cons in Hin as [[= -> ->]|Hin]); [| |by apply elem_of_nil in Hin].
  - split.
    + intros v Hv Hne. by rewrite Hurl, (env_set_true _ _ _ Hv Hne).
    + intros H. by rewrite Hurl, (env_set_false _ _ H).
  - split.
    + intros v Hv Hne. by rewrite Hname, (env_set_true _ _ _ Hv Hne).
    + intros H. by rewrite Hname, (env_set_false _ _ H).
Qed.

Lemma environment_entries_witness :
  test_database Sample.broken_listing !! "database_url" = Some (JStr "✅ Set")
  ∧ test_database Fixture.import_fails !! "database_name" = Some (JStr "❌ Not Set").
Proof.
  split.
  - apply (proj1 (environment_entries_follow_the_environment Sample.broken_listing
                    "database_url" "DATABASE_URL" (list_elem_of_here _ _))
             "mongodb://db"); [reflexivity|discriminate].
  - apply (proj2 (environment_entries_follow_the_environment Fixture.import_fails
                    "database_name" "DATABASE_NAME"
                    (list_elem_of_further _ _ _ (list_elem_of_here _ _)))).
    right. reflexivity.
Defined.

(** Closes one side of an equivalence between a text and an outcome of
    the probe. *)
Ltac probe_case :=
  first
    [ done
    | by eexists
    | by eexists _, _
    | intros;
      repeat match goal with
             | H : ∃ _, _ |- _ => destruct H
             | H : _ ∧ _ |- _ => destruct H
             end;
      congruence ].

(** X4: the ["database"] entry tells the outcomes of the probe apart.  It
    is never the text the payload starts with; it says connected and working
    exactly when the handle is present and its listing returns, available
    but not initialized exactly when the handle is [None], and module not
    found exactly when the import raises an [ImportError]. *)
Theorem database_entry_tells_the_probe (p : probes) :
  ∃ text,
    test_database p !! "database" = Some (JStr text)
    ∧ text ≠ "❌ Not Available"
    ∧ (text = "✅ Connected & Working" ↔
       ∃ db names, import_db p = Return (Some db)
                   ∧ list_collection_names db = Return names)
    ∧ (text = "⚠️  Available but not initialized" ↔ import_db p = Return None)
    ∧ (text = "❌ Database module not found (run enable-database first)" ↔
       ∃ msg, import_db p = Raise (ImportError msg)).
Proof.
  eexists. split; [apply test_database_status|].
  destruct (import_db p) as [[db|]|e].
  - destruct (list_collection_names db) as [names|e] eqn:Hlist; simpl;
      repeat split; probe_case.
  - repeat split; probe_case.
  - destruct e as [msg|msg|code detail|cls msg]; simpl;
      repeat split; probe_case.
Qed.

(** X5: the ["connection_status"] entry follows the handle alone: it says
    connected whenever the import gave a handle, also when the listing of
    that handle raises and ["collections"] stays empty, and not connected
    when the handle is [None] or the import raises; ["backend"] always says
    running. *)
Theorem connection_status_follows_the_handle (p : probes) :
  test_database p !! "backend" = Some (JStr "✅ Running")
  ∧ (∀ db, import_db p = Return (Some db) →
           test_database p !! "connection_status" = Some (JStr "Connected"))
  ∧ (∀ db e, import_db p = Return (Some db) → list_collection_names db = Raise e →
             test_database p !! "connection_status" = Some (JStr "Connected")
             ∧ test_database p !! "collections" = Some (JList []))
  ∧ (import_db p = Return None ∨ (∃ e, import_db p = Raise e) →
     test_database p !! "connection_status" = Some (JStr "Not Connected")).
Proof.
  destruct (test_database_connection p) as [Hbackend Hconn].
  split; [done|]. split; [|split].
  - intros db Hdb. by rewrite Hconn, Hdb.
  - intros db e Hdb Hlist. split; [by rewrite Hconn, Hdb|].
    by rewrite test_database_collections, Hdb, Hlist.
  - intros [Hnone|[e He]]; rewrite Hconn; [by rewrite Hnone|by rewrite He].
Qed.

Lemma connection_status_witness :
  test_database Sample.broken_listing !! "connection_status" = Some (JStr "Connected")
  ∧ test_database Sample.broken_listing !! "collections" = Some (JList [])
  ∧ test_database Fixture.import_fails !! "connection_status" = Some (JStr "Not Connected").
Proof.
  destruct (connection_status_follows_the_handle Sample.broken_listing)
    as (_ & _ & Hbroken & _).
  destruct (connection_status_follows_the_handle Fixture.import_fails)
    as (_ & _ & _ & Hfails).
  split; [|split].
  - apply (Hbroken _ _ eq_refl eq_refl).
  - apply (Hbroken _ _ eq_refl eq_refl).
  - apply Hfails. right. by eexists.
Defined.

Lemma slice_to_prefix n s :
  ∃ rest, s = slice_to n s +:+ rest
          ∧ ∀ c rest', rest = String c rest' → is_continuation c = false.
Proof.
  revert n. induction s as [|c s IH]; intros n; simpl.
  - exists "". by split.
  - destruct (is_continuation c) eqn:Hc.
    + destruct (IH n) as (rest & Hrest & Hlead). exists rest. split; [|done].
      unfold String.append; fold String.append. by f_equal.
    + destruct n as [|n].
      * exists (String c s). split; [done|]. by intros c' rest' [= <- _].
      * destruct (IH n) as (rest & Hrest & Hlead). exists rest. split; [|done].
        unfold String.append; fold String.append. by f_equal.
Qed.

Lemma slice_to_length_min n s :
  char_length (slice_to n s) = n `min` char_length s.
Proof.
  revert n. induction s as [|c s IH]; intros n; simpl; [lia|].
  destruct (is_continuation c) eqn:Hc; simpl; rewrite ?Hc; [apply IH|].
  destruct n as [|n]; simpl; rewrite ?Hc; [done|]. by rewrite IH.
Qed.

(** X6: the error text of the diagnostic payload is the start of the
    message of the exception, cut between two characters: the whole message
    when it has at most 50 characters, its first 50 characters otherwise,
    however many bytes they take.  This holds for an exception of the
    listing and for an exception of the import that is not an
    [ImportError]. *)
Theorem error_text_is_the_start_of_the_message (p : probes) (e : exn) :
  (∃ db, import_db p = Return (Some db) ∧ list_collection_names db = Raise e)
  ∨ (import_db p = Raise e ∧ ∀ msg, e ≠ ImportError msg) →
  ∃ label cut rest,
    test_database p !! "database" = Some (JStr (label +:+ cut))
    ∧ (label = "⚠️  Connected but Error: " ∨ label = "❌ Error: ")
    ∧ str_exn e = cut +:+ rest
    ∧ (∀ c rest', rest = String c rest' → is_continuation c = false)
    ∧ char_length cut = 50 `min` char_length (str_exn e)
    ∧ (char_length (str_exn e) ≤ 50 → cut = str_exn e).
Proof.
  intros Hcase.
  destruct (slice_to_prefix 50 (str_exn e)) as (rest & Hrest & Hlead).
  destruct Hcase as [(db & Hdb & Hlist)|[Himport Hne]].
  - exists "⚠️  Connected but Error: ", (slice_to 50 (str_exn e)), rest.
    split; [by rewrite test_database_status, Hdb, Hlist|].
    split; [by left|]. split; [done|]. split; [done|].
    split; [apply slice_to_length_min|apply slice_to_short].
  - exists "❌ Error: ", (slice_to 50 (str_exn e)), rest.
    split.
    { rewrite test_database_status, Himport.
      destruct e; try done. by destruct (Hne msg). }
    split; [by right|]. split; [done|]. split; [done|].
    split; [apply slice_to_length_min|apply slice_to_short].
Qed.

Lemma error_text_witness :
  (import_db Fixture.accented_listing =
     Raise (Exception "OperationFailure" (repeat_text 60 "é"))
   ∧ ∀ msg, Exception "OperationFailure" (repeat_text 60 "é") ≠ ImportError msg)
  ∧ ∃ label cut rest,
      test_database Fixture.accented_listing !! "database" = Some (JStr (label +:+ cut))
      ∧ (label = "⚠️  Connected but Error: " ∨ label = "❌ Error: ")
      ∧ repeat_text 60 "é" = cut +:+ rest
      ∧ (∀ c rest', rest = String c rest' → is_continuation c = false)
      ∧ char_length cut = 50 `min` char_length (repeat_text 60 "é")
      ∧ (char_length (repeat_text 60 "é") ≤ 50 → cut = repeat_text 60 "é").
Proof.
  assert (import_db Fixture.accented_listing =
            Raise (Exception "OperationFailure" (repeat_text 60 "é"))
          ∧ ∀ msg, Exception "OperationFailure" (repeat_text 60 "é") ≠ ImportError msg)
    as Hcase by (split; [reflexivity|discriminate]).
  split; [exact Hcase|].
  apply (error_text_is_the_start_of_the_message Fixture.accented_listing
           (Exception "OperationFailure" (repeat_text 60 "é"))).
  right. exact Hcase.
Defined.

Example accented_message_is_cut_at_50_characters :
  test_database Fixture.accented_listing !! "database" =
    Some (JStr ("❌ Error: " +:+ repeat_text 50 "é")).
Proof. reflexivity. Qed.

(** ** The list route, document by document *)

Lemma comprehension_app {A B} (f : A → outcome B) l1 l2 :
  comprehension f (l1 ++ l2) =
    do bs1 <- comprehension f l1; do bs2 <- comprehension f l2; Return (bs1 ++ bs2).
Proof.
  induction l1 as [|a l1 IH]; simpl.
  - by destruct (comprehension f l2).
  - destruct (f a); simpl; [|done]. rewrite IH.
    destruct (comprehension f l1); simpl; [|done].
    by destruct (comprehension f l2).
Qed.

Lemma comprehension_first_failure {A B} (f : A → outcome B) good bad rest e :
  Forall (λ a, ∃ b, f a = Return b) good → f bad = Raise e →
  comprehension f (good ++ bad :: rest) = Raise e.
Proof.
  intros Hgood Hbad. rewrite comprehension_app.
  destruct (comprehension_total f good Hgood) as [bs ->]. simpl. by rewrite Hbad.
Qed.

(** X7: the list endpoint gives all or nothing.  When a document the store
    returned does not map, the answer is a 500 whose detail is the text of
    the exception of the first such document, in the order the store
    returned them; the documents before it and after it are not sent. *)
Theorem first_unmappable_document_fails_the_list {S} (gw : gateway S) (p : probes)
    (q : option string) (s s1 : S) good bad rest e :
  get_documents gw "credential" (filter_query q) s = (Return (good ++ bad :: rest), s1) →
  Forall (λ doc, ∃ o, to_out doc = Return o) good →
  to_out bad = Raise e →
  app gw p (GET_api_credentials q) s =
    ({| status := 500; content := error_body (str_exn e) |}, s1).
Proof.
  intros Hdocs Hgood Hbad. simpl.
  by rewrite list_credentials_run, Hdocs, (comprehension_first_failure _ _ _ _ _ Hgood Hbad).
Qed.

Lemma first_unmappable_witness :
  app Store.gw Sample.no_database (GET_api_credentials None)
      (Sample.store_of [Sample.sparse_doc; Fixture.numbered_doc; Sample.text_dated_doc]) =
    ({| status := 500;
        content := error_body (str_exn (validation_error "title")) |},
     Sample.store_of [Sample.sparse_doc; Fixture.numbered_doc; Sample.text_dated_doc]).
Proof.
  apply (first_unmappable_document_fails_the_list Store.gw Sample.no_database None
           _ _ [Sample.sparse_doc] Fixture.numbered_doc [Sample.text_dated_doc]).
  - reflexivity.
  - constructor; [eexists; reflexivity|constructor].
  - reflexivity.
Defined.

(** X8: when every document the store returned maps, the list endpoint
    answers 200 with one object per document, in the order the store
    returned them, each the mapping of its document; for no document it
    answers 200 with the empty array. *)
Theorem list_answers_one_object_per_document {S} (gw : gateway S) (p : probes)
    (q : option string) (s s1 : S) docs :
  get_documents gw "credential" (filter_query q) s = (Return docs, s1) →
  Forall (λ doc, ∃ o, to_out doc = Return o) docs →
  ∃ outs,
    app gw p (GET_api_credentials q) s =
      ({| status := 200; content := Array (CredentialOut_json <$> outs) |}, s1)
    ∧ Forall2 (λ doc o, to_out doc = Return o) docs outs
    ∧ length outs = length docs
    ∧ (docs = [] → outs = []).
Proof.
  intros Hdocs Hall.
  destruct (comprehension_total to_out docs Hall) as [outs Houts].
  exists outs. simpl. rewrite list_credentials_run, Hdocs, Houts.
  pose proof (comprehension_Forall2 _ _ _ Houts) as H2.
  split; [done|]. split; [done|]. split.
  - symmetry. by eapply Forall2_length.
  - intros ->. by inversion H2.
Qed.

Lemma list_answers_witness :
  ∃ outs,
    app Store.gw Sample.no_database (GET_api_credentials (Some "mail"))
        (Sample.store_of [Sample.sparse_doc; Fixture.full_doc]) =
      ({| status := 200; content := Array (CredentialOut_json <$> outs) |},
       Sample.store_of [Sample.sparse_doc; Fixture.full_doc])
    ∧ Forall2 (λ doc o, to_out doc = Return o) [Fixture.full_doc] outs
    ∧ length outs = length [Fixture.full_doc]
    ∧ ([Fixture.full_doc] = [] → outs = []).
Proof.
  apply (list_answers_one_object_per_document Store.gw Sample.no_database (Some "mail")).
  - reflexivity.
  - constructor; [eexists; reflexivity|constructor].
Defined.

(** X9: every request the routes receive is answered 200, 422 or 500, for
    every gateway.  The answer is 422 exactly for a create request whose
    body did not validate: it carries the errors of the validation and the
    gateway is not called.  Whatever the gateway raises, also an HTTP error
    of its own with another status, is answered by a 500 whose body is an
    object with the detail.  Every request leaves the store in the state the
    one gateway call of its handler left: no handler calls the gateway
    twice. *)
Theorem every_answer_is_200_422_or_a_detailed_500 {S} (gw : gateway S) (p : probes)
    (r : request) (s : S) :
  (status (fst (app gw p r s)) = 200
   ∨ (status (fst (app gw p r s)) = 422
      ∧ ∃ errors, r = POST_api_credentials_refused errors
                  ∧ content (fst (app gw p r s)) = ValidationErrors errors
                  ∧ snd (app gw p r s) = s)
   ∨ (status (fst (app gw p r s)) = 500
      ∧ ∃ detail, content (fst (app gw p r s)) = error_body detail))
  ∧ (status (fst (app gw p r s)) = 422 ↔
     ∃ errors, r = POST_api_credentials_refused errors)
  ∧ (∀ text, content (fst (app gw p r s)) ≠ PlainText text)
  ∧ snd (app gw p r s) = state_after gw r s.
Proof.
  destruct r as [| | |c|errors|q]; simpl.
  - split; [by left|]. split; [split; [done|by intros [? [=]]]|by split].
  - split; [by left|]. split; [split; [done|by intros [? [=]]]|by split].
  - split; [by left|]. split; [split; [done|by intros [? [=]]]|by split].
  - rewrite create_credential_run.
    destruct (create_document gw "credential" c s) as [[oid|e] s']; simpl.
    + split; [by left|]. split; [split; [done|by intros [? [=]]]|by split].
    + split; [right; right; split; [done|by eexists]|].
      split; [split; [done|by intros [? [=]]]|by split].
  - split; [right; left; split; [done|by eexists]|].
    split; [split; [by eexists|done]|by split].
  - rewrite list_credentials_run.
    destruct (get_documents gw "credential" (filter_query q) s) as [[docs|e] s']; simpl.
    + destruct (comprehension to_out docs); simpl.
      * split; [by left|]. split; [split; [done|by intros [? [=]]]|by split].
      * split; [right; right; split; [done|by eexists]|].
        split; [split; [done|by intros [? [=]]]|by split].
    + split; [right; right; split; [done|by eexists]|].
      split; [split; [done|by intros [? [=]]]|by split].
Qed.

Example refused_body_is_answered_by_422 :
  app Fixture.refusing Sample.no_database
      (POST_api_credentials_refused Fixture.missing_title) () =
    ({| status := 422; content := ValidationErrors Fixture.missing_title |}, ()).
Proof. reflexivity. Qed.

Example gateway_error_is_answered_by_500 :
  app Fixture.refusing Sample.no_database (POST_api_credentials Sample.github) () =
    ({| status := 500; content := error_body "404: no such tenant" |}, ())
  ∧ app Fixture.refusing Sample.no_database (GET_api_credentials None) () =
    ({| status := 500; content := error_body "404: no such tenant" |}, ()).
Proof. split; reflexivity. Qed.

(** ** The output mapping, field by field *)

Lemma not_read_key key :
  key ∉ read_keys →
  key ≠ "_id" ∧ key ≠ "title" ∧ key ≠ "username" ∧ key ≠ "password"
  ∧ key ≠ "url" ∧ key ≠ "note" ∧ key ≠ "created_at" ∧ key ≠ "updated_at".
Proof.
  unfold read_keys. intros Hnot.
  repeat split; intros ->; apply Hnot; repeat constructor.
Qed.

(** X10: the mapping reads eight keys of a document and no other: setting
    or removing any other key of the document changes neither its output
    nor the exception it raises, so no other stored field reaches a list
    response. *)
Theorem to_out_reads_eight_keys (doc : gmap string value) (key : string) (v : value) :
  key ∉ read_keys →
  to_out (<[key := v]> doc) = to_out doc ∧ to_out (delete key doc) = to_out doc.
Proof.
  intros (? & ? & ? & ? & ? & ? & ? & ?)%not_read_key.
  unfold to_out, timestamp_text.
  by rewrite !get_insert_ne, !get_delete_ne, !get_or_insert_ne, !get_or_delete_ne by done.
Qed.

Lemma to_out_reads_witness :
  to_out (<["owner" := VStr "team-a"]> Sample.dated_doc) = to_out Sample.dated_doc
  ∧ to_out (delete "owner" Fixture.full_doc) = to_out Fixture.full_doc.
Proof.
  split.
  - apply (to_out_reads_eight_keys Sample.dated_doc "owner" (VStr "team-a")).
    vm_compute. intros H. by repeat (apply elem_of_cons in H as [H|H]; [discriminate H|]);
      apply elem_of_nil in H.
  - apply (to_out_reads_eight_keys Fixture.full_doc "owner" VNone).
    vm_compute. intros H. by repeat (apply elem_of_cons in H as [H|H]; [discriminate H|]);
      apply elem_of_nil in H.
Defined.

Lemma text_or_absent_get_or doc key :
  text_or_absent doc key → ∃ s, get_or doc key (VStr "") = VStr s.
Proof. unfold get_or. intros [->|[s ->]]; by eexists. Qed.

Lemma text_null_or_absent_field doc key :
  text_null_or_absent doc key →
  ∃ o, optional_text_field key (get doc key) = Return o.
Proof. unfold get. intros [->|[->|[s ->]]]; by eexists. Qed.

Lemma datetime_or_false_field doc key :
  datetime_or_false doc key →
  ∃ v o, timestamp_text doc key = Return v ∧ optional_text_field key v = Return o.
Proof.
  rewrite timestamp_text_cases. intros [Hfalse|[d Hd]].
  - destruct (get doc key); simpl in *; try done; rewrite ?Hfalse; by eexists _, _.
  - unfold get. rewrite Hd. simpl. by eexists _, _.
Qed.

Lemma mappable_returns doc : mappable doc → ∃ o, to_out doc = Return o.
Proof.
  intros (Ht & Hu & Hp & Hurl & Hnote & Hc & Hup).
  destruct (text_or_absent_get_or _ _ Ht) as [t Ht'].
  destruct (text_or_absent_get_or _ _ Hu) as [u Hu'].
  destruct (text_or_absent_get_or _ _ Hp) as [pw Hp'].
  destruct (text_null_or_absent_field _ _ Hurl) as [url Hurl'].
  destruct (text_null_or_absent_field _ _ Hnote) as [note Hnote'].
  destruct (datetime_or_false_field _ _ Hc) as (c & co & Hc' & Hco).
  destruct (datetime_or_false_field _ _ Hup) as (up & upo & Hup' & Hupo).
  unfold to_out, CredentialOut_new.
  rewrite Hc', Hup', Ht', Hu', Hp'. simpl.
  rewrite Hurl', Hnote', Hco, Hupo. simpl. by eexists.
Qed.

(** X11: a document whose title, username and password are absent or text,
    whose url and note are absent, null or text, and whose timestamps are
    datetimes or false always maps, and its stored texts come out as they
    are: title, username, password, url and note of the output are the
    stored texts, character for character, and a url or note stored as null
    comes out as null. *)
Theorem mappable_documents_pass_through (doc : gmap string value) :
  mappable doc →
  ∃ o,
    to_out doc = Return o
    ∧ (∀ s, doc !! "title" = Some (VStr s) → out_title o = s)
    ∧ (∀ s, doc !! "username" = Some (VStr s) → out_username o = s)
    ∧ (∀ s, doc !! "password" = Some (VStr s) → out_password o = s)
    ∧ (∀ s, doc !! "url" = Some (VStr s) → out_url o = Some s)
    ∧ (∀ s, doc !! "note" = Some (VStr s) → out_note o = Some s)
    ∧ (doc !! "url" = Some VNone → out_url o = None)
    ∧ (doc !! "note" = Some VNone → out_note o = None).
Proof.
  intros [o Ho]%mappable_returns. exists o. split; [done|].
  apply to_out_inv in Ho
    as (created & updated & _ & _ & _ & Ht & Hu & Hp & Hurl & Hnote & _ & _).
  unfold get_or, get in *.
  repeat split.
  - intros s Hs. rewrite Hs in Ht. simpl in Ht. congruence.
  - intros s Hs. rewrite Hs in Hu. simpl in Hu. congruence.
  - intros s Hs. rewrite Hs in Hp. simpl in Hp. congruence.
  - intros s Hs. rewrite Hs in Hurl. simpl in Hurl. congruence.
  - intros s Hs. rewrite Hs in Hnote. simpl in Hnote. congruence.
  - intros Hs. rewrite Hs in Hurl. simpl in Hurl. congruence.
  - intros Hs. rewrite Hs in Hnote. simpl in Hnote. congruence.
Qed.

Lemma mappable_witness :
  ∃ o,
    to_out Fixture.full_doc = Return o
    ∧ (∀ s, Fixture.full_doc !! "title" = Some (VStr s) → out_title o = s)
    ∧ (∀ s, Fixture.full_doc !! "username" = Some (VStr s) → out_username o = s)
    ∧ (∀ s, Fixture.full_doc !! "password" = Some (VStr s) → out_password o = s)
    ∧ (∀ s, Fixture.full_doc !! "url" = Some (VStr s) → out_url o = Some s)
    ∧ (∀ s, Fixture.full_doc !! "note" = Some (VStr s) → out_note o = Some s)
    ∧ (Fixture.full_doc !! "url" = Some VNone → out_url o = None)
    ∧ (Fixture.full_doc !! "note" = Some VNone → out_note o = None).
Proof.
  apply (mappable_documents_pass_through Fixture.full_doc).
  unfold mappable, text_or_absent, text_null_or_absent, datetime_or_false.
  split; [right; by eexists|]. split; [right; by eexists|].
  split; [right; by eexists|]. split; [right; left; reflexivity|].
  split; [right; right; by eexists|]. split; [right; by eexists|].
  left; reflexivity.
Defined.

Example full_document_maps : to_out Fixture.full_doc = Return Fixture.full_out.
Proof. reflexivity. Qed.

(** ** Creating, then listing *)

Lemma to_out_serialized c oid :
  to_out (<["_id" := VObjectId oid]> (Store.serialize c)) = Return (listed oid c).
Proof. destruct c as [t u pw [url|] [note|]]; reflexivity. Qed.

Lemma filter_all {A} (l : list A) : List.filter (λ _, true) l = l.
Proof. induction l as [|a l IH]; simpl; [done|by rewrite IH]. Qed.

Lemma no_faults_next st : Store.faults st = [] → Store.next_fault st = None.
Proof. unfold Store.next_fault. by intros ->. Qed.

(** A create on a store without failure in stock, step by step. *)
Lemma create_on_quiet_store p c st :
  Store.faults st = [] →
  ∃ st1,
    app Store.gw p (POST_api_credentials c) st =
      ({| status := 200;
          content := Object {[ "id" := JStr (Store.object_id (Store.next_id st)) ]} |},
       st1)
    ∧ Store.faults st1 = []
    ∧ Store.documents "credential" st1 =
        Store.documents "credential" st
          ++ [<["_id" := VObjectId (Store.object_id (Store.next_id st))]>
                (Store.serialize c)].
Proof.
  intros Hquiet. eexists. split; [|split].
  - simpl. rewrite create_credential_run. simpl.
    unfold Store.create_document. rewrite (no_faults_next _ Hquiet). reflexivity.
  - simpl. by rewrite Hquiet.
  - unfold Store.documents at 1. simpl. by rewrite lookup_insert_eq.
Qed.

(** The filter of a plain text holds for the documents that contain it. *)
Lemma plain_filter_holds q :
  q ≠ "" → plain q = true →
  ∃ holds,
    Store.filter_pred (filter_query (Some q)) = Store.Pred holds
    ∧ ∀ doc, field_contains doc "title" q ∨ field_contains doc "username" q →
             holds doc = true.
Proof.
  intros Hne Hplain. unfold filter_query. simpl.
  destruct (String.eqb_spec q "") as [|_]; [done|]. simpl.
  rewrite (compile_plain q Hplain). simpl. eexists. split; [done|].
  intros doc [(s & Hs & Hsub)|(s & Hs & Hsub)]; rewrite Hs, orb_false_r;
    apply search_literal in Hsub; rewrite Hsub; [done|apply orb_true_r].
Qed.

Lemma serialized_fields c oid :
  <["_id" := VObjectId oid]> (Store.serialize c) !! "title" = Some (VStr (cred_title c))
  ∧ <["_id" := VObjectId oid]> (Store.serialize c) !! "username" =
      Some (VStr (cred_username c)).
Proof. destruct c as [t u pw [url|] [note|]]; split; reflexivity. Qed.

(** X13: in the modelled store, a credential that was created is found by
    a search.  On a store with no failure in stock, after a create, a list
    with a text [q] that is not empty, has no pattern character and occurs,
    case ignored, in the title or the username of the new credential gets
    the new document from the store; and when the documents it gets all map,
    the answer is 200 and holds the new credential under the identifier the
    create returned. *)
Theorem created_credential_is_found (p : probes) (c : Credential) (q : string)
    (st : Store.store) :
  Store.faults st = [] → q ≠ "" → plain q = true →
  ci_substring q (cred_title c) ∨ ci_substring q (cred_username c) →
  ∃ oid st1 docs,
    app Store.gw p (POST_api_credentials c) st =
      ({| status := 200; content := Object {[ "id" := JStr oid ]} |}, st1)
    ∧ Store.get_documents "credential" (filter_query (Some q)) st1 =
        (Return docs, Store.consume st1)
    ∧ <["_id" := VObjectId oid]> (Store.serialize c) ∈ docs
    ∧ (∀ outs, comprehension to_out docs = Return outs →
         fst (app Store.gw p (GET_api_credentials (Some q)) st1) =
           {| status := 200; content := Array (CredentialOut_json <$> outs) |}
         ∧ listed oid c ∈ outs).
Proof.
  intros Hquiet Hne Hplain Hsub.
  destruct (create_on_quiet_store p c st Hquiet) as (st1 & Hcreate & Hquiet1 & Hdocs1).
  destruct (plain_filter_holds q Hne Hplain) as (holds & Hpred & Hholds).
  set (oid := Store.object_id (Store.next_id st)) in *.
  set (doc := <["_id" := VObjectId oid]> (Store.serialize c)) in *.
  assert (Store.get_documents "credential" (filter_query (Some q)) st1 =
            (Return (List.filter holds (Store.documents "credential" st1)),
             Store.consume st1)) as Hget.
  { unfold Store.get_documents. by rewrite (no_faults_next _ Hquiet1), Hpred. }
  assert (doc ∈ List.filter holds (Store.documents "credential" st1)) as Hin.
  { apply list_elem_of_In, filter_In. split.
    - apply list_elem_of_In. rewrite Hdocs1. apply elem_of_app. right.
      apply list_elem_of_here.
    - apply Hholds. destruct (serialized_fields c oid) as [Ht Hu].
      destruct Hsub as [Hsub|Hsub]; [left|right]; by eexists. }
  exists oid, st1, (List.filter holds (Store.documents "credential" st1)).
  split; [exact Hcreate|]. split; [exact Hget|]. split; [exact Hin|].
  intros outs Houts. split.
  - unfold app. rewrite list_credentials_run.
    change (get_documents Store.gw "credential" (filter_query (Some q)) st1) with
      (Store.get_documents "credential" (filter_query (Some q)) st1).
    by rewrite Hget, Houts.
  - apply comprehension_Forall2 in Houts.
    apply list_elem_of_lookup in Hin as [i Hi].
    destruct (Forall2_lookup_l _ _ _ _ _ Houts Hi) as (o & Ho & Hmap).
    unfold doc in Hmap. rewrite to_out_serialized in Hmap. injection Hmap as <-.
    apply list_elem_of_lookup. by exists i.
Qed.

Lemma created_is_found_witness :
  ∃ oid st1 docs,
    app Store.gw Sample.no_database (POST_api_credentials Sample.github)
        Sample.empty_store =
      ({| status := 200; content := Object {[ "id" := JStr oid ]} |}, st1)
    ∧ Store.get_documents "credential" (filter_query (Some "ALI")) st1 =
        (Return docs, Store.consume st1)
    ∧ <["_id" := VObjectId oid]> (Store.serialize Sample.github) ∈ docs
    ∧ (∀ outs, comprehension to_out docs = Return outs →
         fst (app Store.gw Sample.no_database (GET_api_credentials (Some "ALI")) st1) =
           {| status := 200; content := Array (CredentialOut_json <$> outs) |}
         ∧ listed oid Sample.github ∈ outs).
Proof.
  apply (created_credential_is_found Sample.no_database Sample.github "ALI"
           Sample.empty_store);
    [reflexivity|discriminate|reflexivity|].
  right. exists "", "ce". reflexivity.
Defined.

(** ** The case of the search text *)

Lemma search_literal_lower q q' s :
  Store.lower_text q = Store.lower_text q' →
  Store.search true (literal q) s = Store.search true (literal q') s.
Proof.
  intros Hlower.
  assert (ci_substring q s ↔ ci_substring q' s) as Hiff.
  { unfold ci_substring. by rewrite Hlower. }
  rewrite <- !search_literal in Hiff.
  destruct (Store.search true (literal q) s), (Store.search true (literal q') s);
    try done; [by destruct (proj1 Hiff eq_refl)|by destruct (proj2 Hiff eq_refl)].
Qed.

(** X14: in the modelled store, the case of the search text does not
    matter.  Two texts that are not empty, have no pattern character and
    differ only in the case of their letters get the same answer from the
    list endpoint, and leave the store in the same state. *)
Theorem search_ignores_the_case_of_q (p : probes) (q q' : string) (st : Store.store) :
  q ≠ "" → q' ≠ "" → plain q = true → plain q' = true →
  Store.lower_text q = Store.lower_text q' →
  app Store.gw p (GET_api_credentials (Some q)) st =
    app Store.gw p (GET_api_credentials (Some q')) st.
Proof.
  intros Hne Hne' Hplain Hplain' Hlower.
  assert (Store.get_documents "credential" (filter_query (Some q)) st =
          Store.get_documents "credential" (filter_query (Some q')) st) as Hget.
  { unfold Store.get_documents, filter_query. simpl.
    destruct (String.eqb_spec q "") as [|_]; [done|].
    destruct (String.eqb_spec q' "") as [|_]; [done|]. simpl.
    rewrite (compile_plain q Hplain), (compile_plain q' Hplain'). simpl.
    destruct (Store.next_fault st); [done|].
    f_equal. f_equal. apply filter_ext. intros doc.
    destruct (doc !! "title") as [[]|], (doc !! "username") as [[]|];
      by rewrite ?(search_literal_lower q q' _ Hlower). }
  unfold app. rewrite !list_credentials_run.
  change (get_documents Store.gw) with Store.get_documents.
  by rewrite Hget.
Qed.

Lemma search_case_witness :
  app Store.gw Sample.no_database (GET_api_credentials (Some "git"))
      (Sample.store_of [Sample.github_doc; Fixture.full_doc]) =
    app Store.gw Sample.no_database (GET_api_credentials (Some "GiT"))
      (Sample.store_of [Sample.github_doc; Fixture.full_doc]).
Proof.
  apply (search_ignores_the_case_of_q Sample.no_database "git" "GiT");
    [discriminate|discriminate|reflexivity|reflexivity|reflexivity].
Defined.

(** * Documents the mapping refuses *)

Lemma to_out_created_refused doc :
  not_a_datetime (get doc "created_at") →
  to_out doc = Raise (AttributeError (no_isoformat (get doc "created_at"))).
Proof.
  intros [Htrue Hnot]. unfold to_out. rewrite (timestamp_text_cases doc "created_at").
  unfold no_isoformat.
  destruct (get doc "created_at") as [|b|n|t|d|oid]; simpl in *; try done;
    try (by rewrite Htrue).
  by destruct (Hnot d).
Qed.

Lemma to_out_updated_refused doc :
  datetime_or_false doc "created_at" →
  not_a_datetime (get doc "updated_at") →
  to_out doc = Raise (AttributeError (no_isoformat (get doc "updated_at"))).
Proof.
  intros (created & _ & Hcreated & _)%datetime_or_false_field [Htrue Hnot].
  unfold to_out. rewrite Hcreated, (timestamp_text_cases doc "updated_at"). simpl.
  unfold no_isoformat.
  destruct (get doc "updated_at") as [|b|n|t|d|oid]; simpl in *; try done;
    try (by rewrite Htrue).
  by destruct (Hnot d).
Qed.

(** Among documents of which one is refused there is a first refused one. *)
Lemma first_refused docs doc e :
  doc ∈ docs → to_out doc = Raise e →
  ∃ good bad rest e',
    docs = good ++ bad :: rest ∧ Forall accepted good ∧ to_out bad = Raise e'.
Proof.
  intros Hin Hdoc. induction docs as [|a docs IH]; [by apply elem_of_nil in Hin|].
  destruct (to_out a) as [o|e'] eqn:Ha.
  - apply elem_of_cons in Hin as [->|Hin]; [congruence|].
    destruct (IH Hin) as (good & bad & rest & e' & -> & Hgood & Hbad).
    exists (a :: good), bad, rest, e'. split; [done|]. split; [|done].
    constructor; [by exists o|done].
  - exists [], a, docs, e'. split; [done|]. split; [constructor|done].
Qed.

Lemma list_first_refused {S} (gw : gateway S) p q s s1 good bad rest e :
  get_documents gw "credential" (filter_query q) s = (Return (good ++ bad :: rest), s1) →
  Forall accepted good → to_out bad = Raise e →
  app gw p (GET_api_credentials q) s =
    ({| status := 500; content := error_body (str_exn e) |}, s1).
Proof.
  intros Hdocs Hgood Hbad. simpl.
  by rewrite list_credentials_run, Hdocs, (comprehension_first_failure _ _ _ _ _ Hgood Hbad).
Qed.

(** C3, as the code has it: for a document the mapping accepts, created_at
    and updated_at are the ISO-8601 text of a stored datetime, and null when
    the field is absent or holds a false value (null, empty text, zero,
    false).  A stored value that is true and is not a datetime is not turned
    into null: the mapping raises the [AttributeError] of the missing
    [isoformat], for created_at first, for updated_at when created_at is a
    datetime or false.  The list endpoint then answers 500, and its detail is
    the text of the exception of the first document, in the order of the
    store, that the mapping refuses: the text of that [AttributeError] when
    this is the document with the timestamp. *)
Theorem timestamps_iso_or_null {S} (gw : gateway S) (p : probes) :
  (∀ doc o key field,
      to_out doc = Return o → (key, field) ∈ timestamp_fields →
      (∀ d, doc !! key = Some (VDatetime d) → field o = Some (isoformat d))
      ∧ (truthy (get doc key) = false → field o = None))
  ∧ (∀ doc,
      not_a_datetime (get doc "created_at") →
      to_out doc = Raise (AttributeError (no_isoformat (get doc "created_at"))))
  ∧ (∀ doc,
      datetime_or_false doc "created_at" → not_a_datetime (get doc "updated_at") →
      to_out doc = Raise (AttributeError (no_isoformat (get doc "updated_at"))))
  ∧ (∀ q s s1 good bad rest key,
      get_documents gw "credential" (filter_query q) s =
        (Return (good ++ bad :: rest), s1) →
      Forall accepted good →
      key = "created_at" ∧ not_a_datetime (get bad "created_at")
      ∨ key = "updated_at" ∧ datetime_or_false bad "created_at"
        ∧ not_a_datetime (get bad "updated_at") →
      app gw p (GET_api_credentials q) s =
        ({| status := 500; content := error_body (no_isoformat (get bad key)) |}, s1))
  ∧ (∀ q s s1 docs doc key,
      get_documents gw "credential" (filter_query q) s = (Return docs, s1) →
      doc ∈ docs → key ∈ ["created_at"; "updated_at"] →
      not_a_datetime (get doc key) →
      ∃ good bad rest e,
        docs = good ++ bad :: rest ∧ Forall accepted good ∧ to_out bad = Raise e
        ∧ app gw p (GET_api_credentials q) s =
            ({| status := 500; content := error_body (str_exn e) |}, s1)).
Proof.
  split; [|split; [|split; [|split]]].
  - intros doc o key field
      (created & updated & Hc & Hu & _ & _ & _ & _ & _ & _ & Hca & Hua)%to_out_inv Hin.
    rewrite timestamp_text_cases in Hc, Hu. unfold timestamp_fields in Hin.
    repeat (apply elem_of_cons in Hin as [[= -> ->]|Hin]); [| |by apply elem_of_nil in Hin].
    + split.
      * intros d Hd. unfold get in Hc. rewrite Hd in Hc. simpl in Hc.
        injection Hc as <-. simpl in Hca. congruence.
      * intros Hfalse. destruct (get doc "created_at"); simpl in Hfalse; try done;
          simpl in Hc; rewrite ?Hfalse in Hc; injection Hc as <-; simpl in Hca; congruence.
    + split.
      * intros d Hd. unfold get in Hu. rewrite Hd in Hu. simpl in Hu.
        injection Hu as <-. simpl in Hua. congruence.
      * intros Hfalse. destruct (get doc "updated_at"); simpl in Hfalse; try done;
          simpl in Hu; rewrite ?Hfalse in Hu; injection Hu as <-; simpl in Hua; congruence.
  - apply to_out_created_refused.
  - apply to_out_updated_refused.
  - intros q s s1 good bad rest key Hdocs Hgood [[-> Hbad]|(-> & Hcreated & Hbad)].
    + apply (list_first_refused gw p q s s1 good bad rest _ Hdocs Hgood
               (to_out_created_refused bad Hbad)).
    + apply (list_first_refused gw p q s s1 good bad rest _ Hdocs Hgood
               (to_out_updated_refused bad Hcreated Hbad)).
  - intros q s s1 docs doc key Hdocs Hin Hkey [Htrue Hnot].
    destruct (to_out_bad_timestamp doc key Hkey Htrue Hnot) as [msg Hmsg].
    destruct (first_refused docs doc _ Hin Hmsg)
      as (good & bad & rest & e & -> & Hgood & Hbad).
    exists good, bad, rest, e. repeat split; try done.
    apply (list_first_refused gw p q s s1 good bad rest e Hdocs Hgood Hbad).
Qed.

Lemma timestamps_witness :
  (to_out Sample.dated_doc =
     Return {| out_id := "65f0c0ffee0000000000002a"; out_title := "GitHub";
               out_username := ""; out_password := ""; out_url := None;
               out_note := None; out_created_at := Some "2024-03-09T07:05:00";
               out_updated_at := None |}
   ∧ Sample.dated_doc !! "created_at" = Some (VDatetime Sample.nine_march)
   ∧ isoformat Sample.nine_march = "2024-03-09T07:05:00")
  ∧ (Store.get_documents "credential" (filter_query None)
       (Sample.store_of [Sample.dated_doc; Fixture.epoch_doc; Sample.text_dated_doc]) =
       (Return ([Sample.dated_doc] ++ Fixture.epoch_doc :: [Sample.text_dated_doc]),
        Sample.store_of [Sample.dated_doc; Fixture.epoch_doc; Sample.text_dated_doc])
     ∧ not_a_datetime (get Fixture.epoch_doc "updated_at")
     ∧ app Store.gw Sample.no_database (GET_api_credentials None)
           (Sample.store_of [Sample.dated_doc; Fixture.epoch_doc; Sample.text_dated_doc]) =
         ({| status := 500;
             content := error_body "'int' object has no attribute 'isoformat'" |},
          Sample.store_of [Sample.dated_doc; Fixture.epoch_doc; Sample.text_dated_doc])).
Proof.
  destruct (timestamps_iso_or_null Store.gw Sample.no_database)
    as (Hok & _ & _ & Hfirst & _).
  assert (not_a_datetime (get Fixture.epoch_doc "updated_at")) as Hbad
    by (split; [reflexivity|discriminate]).
  split; [split; [reflexivity|split; [reflexivity|]]|split; [reflexivity|split; [exact Hbad|]]].
  - apply (inj Some). symmetry.
    exact (proj1 (Hok Sample.dated_doc _ "created_at" out_created_at
                    eq_refl (list_elem_of_here _ _))
             Sample.nine_march eq_refl).
  - apply (Hfirst None _ _ [Sample.dated_doc] Fixture.epoch_doc [Sample.text_dated_doc]
             "updated_at"); [reflexivity| |].
    + constructor; [eexists; reflexivity|constructor].
    + right. split; [reflexivity|]. split; [left; reflexivity|exact Hbad].
Defined.

(** C2, as the code has it: the list endpoint maps the documents the store
    returned all together or not at all.  When the mapping accepts every
    one of them, which it does whenever title, username and password are
    absent or text, url and note are absent, null or text, and the two
    timestamps are datetimes or false, the answer is 200 with one object
    per document, each with all eight keys: title, username and password
    are text, the empty text when the document lacks the field, and url,
    note, created_at and updated_at are text or null, null when the document
    lacks the field.  When the mapping refuses one of them, no object is
    sent for any document: the answer is 500 with the text of the exception
    of the first refused document.  So the objects of every 200 answer are
    well shaped. *)
Theorem accepted_documents_are_well_shaped {S} (gw : gateway S) (p : probes)
    (q : option string) (s s1 : S) docs :
  get_documents gw "credential" (filter_query q) s = (Return docs, s1) →
  (Forall accepted docs →
     ∃ objs,
       app gw p (GET_api_credentials q) s =
         ({| status := 200; content := Array objs |}, s1)
       ∧ Forall2 well_shaped docs objs)
  ∧ (Forall mappable docs → Forall accepted docs)
  ∧ (∀ good bad rest e,
       docs = good ++ bad :: rest → Forall accepted good → to_out bad = Raise e →
       app gw p (GET_api_credentials q) s =
         ({| status := 500; content := error_body (str_exn e) |}, s1))
  ∧ (∀ objs,
       fst (app gw p (GET_api_credentials q) s) =
         {| status := 200; content := Array objs |} →
       Forall2 well_shaped docs objs).
Proof.
  intros Hdocs.
  assert (∀ outs, comprehension to_out docs = Return outs →
                  Forall2 well_shaped docs (CredentialOut_json <$> outs)) as Hshape.
  { intros outs Houts. apply Forall2_fmap_r.
    eapply Forall2_impl; [exact (comprehension_Forall2 _ _ _ Houts)|].
    intros doc o. apply to_out_json. }
  split; [|split; [|split]].
  - intros Hall. destruct (comprehension_total to_out docs Hall) as [outs Houts].
    exists (CredentialOut_json <$> outs). split; [|by apply Hshape].
    simpl. by rewrite list_credentials_run, Hdocs, Houts.
  - intros Hall. eapply Forall_impl; [exact Hall|]. intros doc. apply mappable_returns.
  - intros good bad rest e -> Hgood Hbad.
    apply (list_first_refused gw p q s s1 good bad rest e Hdocs Hgood Hbad).
  - simpl. rewrite list_credentials_run, Hdocs.
    destruct (comprehension to_out docs) as [outs|e] eqn:Houts; simpl; [|done].
    intros objs [= <-]. by apply Hshape.
Qed.

Lemma accepted_documents_witness :
  get_documents Store.gw "credential" (filter_query None)
      (Sample.store_of [Sample.sparse_doc; Fixture.full_doc]) =
    (Return [Sample.sparse_doc; Fixture.full_doc],
     Sample.store_of [Sample.sparse_doc; Fixture.full_doc])
  ∧ Forall accepted [Sample.sparse_doc; Fixture.full_doc]
  ∧ ∃ objs,
      app Store.gw Sample.no_database (GET_api_credentials None)
          (Sample.store_of [Sample.sparse_doc; Fixture.full_doc]) =
        ({| status := 200; content := Array objs |},
         Sample.store_of [Sample.sparse_doc; Fixture.full_doc])
      ∧ Forall2 well_shaped [Sample.sparse_doc; Fixture.full_doc] objs.
Proof.
  assert (Forall accepted [Sample.sparse_doc; Fixture.full_doc]) as Hall.
  { repeat constructor; eexists; reflexivity. }
  split; [reflexivity|]. split; [exact Hall|].
  apply (proj1 (accepted_documents_are_well_shaped Store.gw Sample.no_database None
                  (Sample.store_of [Sample.sparse_doc; Fixture.full_doc])
                  (Sample.store_of [Sample.sparse_doc; Fixture.full_doc])
                  [Sample.sparse_doc; Fixture.full_doc] eq_refl) Hall).
Defined.

(** C2, as the claim has it, fails: the store returns a document whose
    update time is a number; the mapping raises, no output exists for the
    document, and the list endpoint answers 500 without any object. *)
Lemma number_timestamp_has_no_object :
  get_documents Store.gw "credential" (filter_query None)
      (Sample.store_of [Fixture.epoch_doc]) =
    (Return [Fixture.epoch_doc], Sample.store_of [Fixture.epoch_doc])
  ∧ to_out Fixture.epoch_doc =
      Raise (AttributeError "'int' object has no attribute 'isoformat'")
  ∧ app Store.gw Sample.no_database (GET_api_credentials None)
        (Sample.store_of [Fixture.epoch_doc]) =
      ({| status := 500;
          content := error_body "'int' object has no attribute 'isoformat'" |},
       Sample.store_of [Fixture.epoch_doc]).
Proof. repeat split; reflexivity. Qed.

(** * Creating, then listing everything *)

(** X12: in the modelled store, a credential that was created is listed.
    On a store with no failure in stock whose documents all map, a create
    followed by a list without [q] answers 200; the answer still holds every
    output that was listed before, and it holds the new credential: an
    output whose id is the identifier the create returned and whose title,
    username, password, url and note are those of the request. *)
Theorem created_credential_is_listed (p : probes) (c : Credential)
    (st : Store.store) (outs : list CredentialOut) :
  Store.faults st = [] →
  comprehension to_out (Store.documents "credential" st) = Return outs →
  ∃ oid st1 outs',
    app Store.gw p (POST_api_credentials c) st =
      ({| status := 200; content := Object {[ "id" := JStr oid ]} |}, st1)
    ∧ fst (app Store.gw p (GET_api_credentials None) st1) =
        {| status := 200; content := Array (CredentialOut_json <$> outs') |}
    ∧ (∀ o, o ∈ outs → o ∈ outs')
    ∧ ∃ o, o ∈ outs'
           ∧ out_id o = oid ∧ out_title o = cred_title c
           ∧ out_username o = cred_username c ∧ out_password o = cred_password c
           ∧ out_url o = cred_url c ∧ out_note o = cred_note c.
Proof.
  intros Hquiet Houts.
  destruct (create_on_quiet_store p c st Hquiet) as (st1 & Hcreate & Hquiet1 & Hdocs1).
  eexists _, st1, (outs ++ [listed _ c]). split; [exact Hcreate|]. split; [|split].
  - simpl. rewrite list_credentials_run. simpl.
    unfold Store.get_documents. rewrite (no_faults_next _ Hquiet1). simpl.
    rewrite filter_all, Hdocs1, comprehension_app, Houts. simpl.
    by rewrite to_out_serialized.
  - intros o Ho. apply elem_of_app. by left.
  - eexists. split; [apply elem_of_app; right; apply list_elem_of_here|].
    by repeat split.
Qed.

Lemma created_is_listed_witness :
  Store.faults (Sample.store_of [Fixture.full_doc]) = []
  ∧ comprehension to_out (Store.documents "credential" (Sample.store_of [Fixture.full_doc])) =
      Return [Fixture.full_out]
  ∧ ∃ oid st1 outs',
      app Store.gw Sample.no_database (POST_api_credentials Sample.github)
          (Sample.store_of [Fixture.full_doc]) =
        ({| status := 200; content := Object {[ "id" := JStr oid ]} |}, st1)
      ∧ fst (app Store.gw Sample.no_database (GET_api_credentials None) st1) =
          {| status := 200; content := Array (CredentialOut_json <$> outs') |}
      ∧ (∀ o, o ∈ [Fixture.full_out] → o ∈ outs')
      ∧ ∃ o, o ∈ outs'
             ∧ out_id o = oid ∧ out_title o = cred_title Sample.github
             ∧ out_username o = cred_username Sample.github
             ∧ out_password o = cred_password Sample.github
             ∧ out_url o = cred_url Sample.github ∧ out_note o = cred_note Sample.github.
Proof.
  split; [reflexivity|]. split; [reflexivity|].
  apply (created_credential_is_listed Sample.no_database Sample.github
           (Sample.store_of [Fixture.full_doc]) [Fixture.full_out]); reflexivity.
Defined.
